(** * etl.py: the song-catalog and event-log stages of the data-lake job

    A shallow embedding of [src/etl.py].  The script drives a SQL engine:
    it reads JSON corpora into data frames, registers them as session
    views, runs five SQL statements over the views and writes the results
    to columnar storage.  The embedding keeps that shape:

    - a data frame is a schema (column names) and a list of rows;
    - the session is explicit state: registered views, the JSON corpora
      found under each input glob, the tables persisted under each path;
    - a stage is a computation in a state-and-error monad in which a
      failure keeps the effects already performed (as a raised Python
      exception does);
    - a SQL statement is a function from the registered views to a
      result, built from combinators that first resolve every relation
      and column name (analysis) and only then compute rows.

    Of the engine, the model fixes what the script leaves to it: rows keep
    one order (a DISTINCT keeps one row of each kind, in list order), the
    session time zone is UTC, names are compared as written, and JSON
    fields hold scalars.  Arithmetic on numbers is in IEEE binary64, as the
    engine's is: [ts/1000] is a rounded quotient and a timestamp a 64-bit
    count of microseconds.  Of the layout of a partitioned write the model
    keeps that a table without rows leaves nothing to read back; the
    credentials set at import are left out. *)

From Stdlib Require Import ZArith List String Ascii Bool Lia.
From Stdlib Require Import Floats.SpecFloat.
From stdpp Require Import gmap strings list.
Import ListNotations.

#[local] Open Scope string_scope.
#[local] Open Scope Z_scope.

(** ** Values and rows *)

(** A cell of a data frame.  A double of the JSON corpus is kept as the
    decimal it is written as, in millionths: the statements pass such
    cells on and compare them, and compute on them only under [ts/1000],
    which reads the decimal into a binary64 first.  A timestamp is a count
    of microseconds since the epoch. *)
Inductive Value : Type :=
  | VNull
  | VStr (s : string)
  | VInt (z : Z)
  | VDouble (millionths : Z)
  | VTimestamp (micros : Z).

#[global] Instance Value_eq_dec : EqDecision Value.
Proof. solve_decision. Defined.

Definition Row : Type := list Value.

Definition is_null (v : Value) : bool :=
  match v with VNull => true | _ => false end.

(** SQL [=]: a comparison with NULL is not true. *)
Definition sql_eq (a b : Value) : bool :=
  negb (is_null a) && negb (is_null b) && bool_decide (a = b).

Record DataFrame : Type := mkDataFrame {
  schema : list string;
  rows : list Row
}.

#[global] Instance DataFrame_eq_dec : EqDecision DataFrame.
Proof. solve_decision. Defined.

(** ** Errors *)

Inductive Error : Type :=
  | PathNotFound (path : string)
  | UnableToInferSchema (path : string)
  | TableOrViewNotFound (name : string)
  | CannotResolve (qualifier : option string) (column : string).

Inductive Result (A : Type) : Type :=
  | Ok (a : A)
  | Err (e : Error).
Arguments Ok {A} a.
Arguments Err {A} e.

Definition rbind {A B} (r : Result A) (k : A -> Result B) : Result B :=
  match r with
  | Ok a => k a
  | Err e => Err e
  end.

Notation "'check' x <- r 'in' k" := (rbind r (fun x => k))
  (at level 10, x name, r at level 200, k at level 200).

Fixpoint sequence {A} (rs : list (Result A)) : Result (list A) :=
  match rs with
  | [] => Ok []
  | r :: rs' => check a <- r in check l <- sequence rs' in Ok (a :: l)
  end.

(** ** Calendar functions of the engine (session time zone UTC) *)

Module Calendar.

Definition MICROS_PER_SECOND : Z := 1000000.
Definition SECONDS_PER_DAY : Z := 86400.

Definition epoch_second (micros : Z) : Z := micros / MICROS_PER_SECOND.
Definition epoch_day (micros : Z) : Z := epoch_second micros / SECONDS_PER_DAY.
Definition second_of_day (micros : Z) : Z := epoch_second micros mod SECONDS_PER_DAY.

(** Proleptic Gregorian date of a day number (day 0 is 1970-01-01). *)
Definition civil_from_days (d : Z) : Z * Z * Z :=
  let z := d + 719468 in
  let era := z / 146097 in
  let doe := z mod 146097 in
  let yoe := (doe - doe / 1460 + doe / 36524 - doe / 146096) / 365 in
  let doy := doe - (365 * yoe + yoe / 4 - yoe / 100) in
  let mp := (5 * doy + 2) / 153 in
  let day := doy - (153 * mp + 2) / 5 + 1 in
  let month := if mp <? 10 then mp + 3 else mp - 9 in
  let year := yoe + era * 400 + (if month <=? 2 then 1 else 0) in
  (year, month, day).

Definition days_from_civil (y m d : Z) : Z :=
  let y' := if m <=? 2 then y - 1 else y in
  let era := y' / 400 in
  let yoe := y' mod 400 in
  let mp := if m <=? 2 then m + 9 else m - 3 in
  let doy := (153 * mp + 2) / 5 + d - 1 in
  let doe := yoe * 365 + yoe / 4 - yoe / 100 + doy in
  era * 146097 + doe - 719468.

Definition year_of (micros : Z) : Z := fst (fst (civil_from_days (epoch_day micros))).
Definition month_of (micros : Z) : Z := snd (fst (civil_from_days (epoch_day micros))).
Definition dayofmonth_of (micros : Z) : Z := snd (civil_from_days (epoch_day micros)).
Definition hour_of (micros : Z) : Z := second_of_day micros / 3600.
Definition minute_of (micros : Z) : Z := (second_of_day micros mod 3600) / 60.
Definition second_of (micros : Z) : Z := second_of_day micros mod 60.

(** 1 = Sunday ... 7 = Saturday; day 0 was a Thursday. *)
Definition dayofweek_of (micros : Z) : Z := (epoch_day micros + 4) mod 7 + 1.

(** ISO 8601 week: the week of the year that holds this week's Thursday. *)
Definition weekofyear_of (micros : Z) : Z :=
  let d := epoch_day micros in
  let thursday := d - (d + 3) mod 7 + 3 in
  let y := fst (fst (civil_from_days thursday)) in
  (thursday - days_from_civil y 1 1) / 7 + 1.

End Calendar.

(** ** Doubles of the engine

    IEEE binary64 with rounding to nearest, ties to even, by the
    specification of the standard library. *)

Module Double.

Definition prec : Z := 53.
Definition emax : Z := 1024.

(** The double nearest to an integer (the cast of a long). *)
Definition of_Z (z : Z) : spec_float := binary_normalize prec emax z 0 false.

(** The double nearest to the fraction [n / d], for [d > 0]. *)
Definition of_rational (n d : Z) : spec_float :=
  match n, d with
  | Zpos a, Zpos b => SFdiv prec emax (S754_finite false a 0) (S754_finite false b 0)
  | Zneg a, Zpos b => SFdiv prec emax (S754_finite true a 0) (S754_finite false b 0)
  | _, _ => S754_zero false
  end.

Definition div : spec_float -> spec_float -> spec_float := SFdiv prec emax.
Definition mul : spec_float -> spec_float -> spec_float := SFmul prec emax.

Definition MIN_LONG : Z := - 2 ^ 63.
Definition MAX_LONG : Z := 2 ^ 63 - 1.

(** The cast of a double to a long: the fraction is cut off and the value
    kept within the 64 bits. *)
Definition to_long (x : spec_float) : Z :=
  match x with
  | S754_finite s m e =>
      let a := if 0 <=? e then Z.shiftl (Zpos m) e else Z.shiftr (Zpos m) (- e) in
      Z.max MIN_LONG (Z.min MAX_LONG (if s then - a else a))
  | S754_infinity s => if s then MIN_LONG else MAX_LONG
  | _ => 0
  end.

Definition is_finite (x : spec_float) : bool :=
  match x with
  | S754_zero _ | S754_finite _ _ _ => true
  | _ => false
  end.

End Double.

(** ** Numerals in strings

    The cast of a string to a double: blanks around it are dropped; a
    decimal numeral has an optional sign, digits with an optional point,
    an optional exponent and an optional suffix d or f; a hexadecimal one
    has hexadecimal digits after 0x and a binary exponent after p; [nan],
    [inf] and [infinity] are read in any letter case.  Any other string
    casts to NULL. *)

Module Numeral.

Definition is_digit (c : ascii) : bool :=
  ((48 <=? nat_of_ascii c) && (nat_of_ascii c <=? 57))%nat.

Definition digit (c : ascii) : Z := Z.of_nat (nat_of_ascii c) - 48.

Definition is_blank (c : ascii) : bool := (nat_of_ascii c <=? 32)%nat.

Definition lower (c : ascii) : ascii :=
  if ((65 <=? nat_of_ascii c) && (nat_of_ascii c <=? 90))%nat
  then ascii_of_nat (nat_of_ascii c + 32)
  else c.

(** The digits at the head of [cs], read on to [acc]; their number. *)
Fixpoint digits (cs : list ascii) (acc count : Z) : Z * Z * list ascii :=
  match cs with
  | c :: cs' => if is_digit c then digits cs' (10 * acc + digit c) (count + 1)
                else (acc, count, cs)
  | [] => (acc, count, [])
  end.

Definition hex_digit (c : ascii) : option Z :=
  let n := nat_of_ascii (lower c) in
  if is_digit c then Some (digit c)
  else if ((97 <=? n) && (n <=? 102))%nat then Some (Z.of_nat n - 87)
  else None.

Fixpoint hex_digits (cs : list ascii) (acc count : Z) : Z * Z * list ascii :=
  match cs with
  | c :: cs' =>
      match hex_digit c with
      | Some d => hex_digits cs' (16 * acc + d) (count + 1)
      | None => (acc, count, cs)
      end
  | [] => (acc, count, [])
  end.

Fixpoint drop_blanks (cs : list ascii) : list ascii :=
  match cs with
  | c :: cs' => if is_blank c then drop_blanks cs' else cs
  | [] => []
  end.

Definition trim (cs : list ascii) : list ascii :=
  rev (drop_blanks (rev (drop_blanks cs))).

Definition sign (cs : list ascii) : bool * list ascii :=
  match cs with
  | "-"%char :: cs' => (true, cs')
  | "+"%char :: cs' => (false, cs')
  | _ => (false, cs)
  end.

(** The double nearest to [m * 10 ^ e]. *)
Definition decimal (neg : bool) (m e : Z) : spec_float :=
  if m =? 0 then S754_zero neg
  else
    let m' := if neg then - m else m in
    if 0 <=? e then Double.of_rational (m' * 10 ^ e) 1
    else Double.of_rational m' (10 ^ (- e)).

(** The double nearest to [m * 2 ^ e]. *)
Definition binary (neg : bool) (m e : Z) : spec_float :=
  if m =? 0 then S754_zero neg
  else
    let m' := if neg then - m else m in
    if 0 <=? e then Double.of_rational (m' * 2 ^ e) 1
    else Double.of_rational m' (2 ^ (- e)).

Definition exponent (cs : list ascii) : option (Z * list ascii) :=
  match cs with
  | c :: cs' =>
      if Ascii.eqb (lower c) "e" then
        let (neg, cs'') := sign cs' in
        let '(e, count, rest) := digits cs'' 0 0 in
        if count =? 0 then None else Some (if neg then - e else e, rest)
      else Some (0, cs)
  | [] => Some (0, [])
  end.

Definition suffix (cs : list ascii) : list ascii :=
  match cs with
  | c :: cs' =>
      if Ascii.eqb (lower c) "d" || Ascii.eqb (lower c) "f" then cs' else cs
  | [] => []
  end.

(** A decimal numeral, after its sign. *)
Definition decimal_numeral (neg : bool) (cs : list ascii) : option spec_float :=
  let '(m1, n1, r1) := digits cs 0 0 in
  let '(m2, n2, r2) :=
    match r1 with
    | "."%char :: r => digits r m1 0
    | _ => (m1, 0, r1)
    end in
  if n1 + n2 =? 0 then None
  else
    match exponent r2 with
    | Some (e, r3) =>
        match suffix r3 with
        | [] => Some (decimal neg m2 (e - n2))
        | _ => None
        end
    | None => None
    end.

(** A hexadecimal numeral, after its sign and 0x: its binary exponent is
    not optional. *)
Definition hex_numeral (neg : bool) (cs : list ascii) : option spec_float :=
  let '(m1, n1, r1) := hex_digits cs 0 0 in
  let '(m2, n2, r2) :=
    match r1 with
    | "."%char :: r => hex_digits r m1 0
    | _ => (m1, 0, r1)
    end in
  if n1 + n2 =? 0 then None
  else
    match r2 with
    | c :: r3 =>
        if Ascii.eqb (lower c) "p" then
          let (eneg, r4) := sign r3 in
          let '(e, count, r5) := digits r4 0 0 in
          if count =? 0 then None
          else
            match suffix r5 with
            | [] => Some (binary neg m2 ((if eneg then - e else e) - 4 * n2))
            | _ => None
            end
        else None
    | [] => None
    end.

Definition to_double (s : string) : option spec_float :=
  let (neg, cs) := sign (trim (list_ascii_of_string s)) in
  let word := string_of_list_ascii (map lower cs) in
  if String.eqb word "nan" then Some S754_nan
  else if String.eqb word "inf" || String.eqb word "infinity"
  then Some (S754_infinity neg)
  else
    match cs with
    | "0"%char :: x :: cs' =>
        if Ascii.eqb (lower x) "x" then hex_numeral neg cs' else decimal_numeral neg cs
    | _ => decimal_numeral neg cs
    end.

End Numeral.

(** ** SQL scalar functions *)

(** The cast of a cell to a double, as [/] applies it: NULL stays NULL
    (here [None]).  A timestamp has no place under [/]: no field of a
    JSON record is one. *)
Definition sql_to_double (v : Value) : option spec_float :=
  match v with
  | VInt z => Some (Double.of_Z z)
  | VDouble u => Some (Double.of_rational u 1000000)
  | VStr s => Numeral.to_double s
  | VNull | VTimestamp _ => None
  end.

(** [x / 1000]: both sides are cast to doubles and the quotient is a
    double. *)
Definition sql_div_1000 (v : Value) : option spec_float :=
  match sql_to_double v with
  | Some x => Some (Double.div x (Double.of_Z 1000))
  | None => None
  end.

(** [to_timestamp(x)] of a double: its cast to a timestamp.  The double is
    a count of seconds; its product with 1000000, a double again, is cut
    to a 64-bit count of microseconds.  NaN and the infinities give NULL. *)
Definition sql_to_timestamp (x : option spec_float) : Value :=
  match x with
  | Some d =>
      if Double.is_finite d
      then VTimestamp (Double.to_long (Double.mul d (Double.of_Z Calendar.MICROS_PER_SECOND)))
      else VNull
  | None => VNull
  end.

Definition on_timestamp (f : Z -> Z) (v : Value) : Value :=
  match v with
  | VTimestamp t => VInt (f t)
  | _ => VNull
  end.

Definition sql_hour : Value -> Value := on_timestamp Calendar.hour_of.
Definition sql_dayofmonth : Value -> Value := on_timestamp Calendar.dayofmonth_of.
Definition sql_weekofyear : Value -> Value := on_timestamp Calendar.weekofyear_of.
Definition sql_month : Value -> Value := on_timestamp Calendar.month_of.
Definition sql_year : Value -> Value := on_timestamp Calendar.year_of.
Definition sql_dayofweek : Value -> Value := on_timestamp Calendar.dayofweek_of.

(** ** Reading JSON *)

(** A JSON record: field names with scalar values, as every field of the
    song and log records is.  A field that a record does not have reads as
    NULL in the data frame. *)
Definition JsonObject : Type := list (string * Value).

Fixpoint field (o : JsonObject) (c : string) : Value :=
  match o with
  | [] => VNull
  | (k, v) :: o' => if String.eqb k c then v else field o' c
  end.

(** Schema inference: the columns are the field names met in the corpus. *)
Definition infer_schema (corpus : list JsonObject) : list string :=
  remove_dups (concat (map (map fst) corpus)).

(** The row of a record under a schema. *)
Definition encode (sch : list string) (o : JsonObject) : Row :=
  map (field o) sch.

Definition json_to_df (corpus : list JsonObject) : DataFrame :=
  {| schema := infer_schema corpus;
     rows := map (encode (infer_schema corpus)) corpus |}.

(** ** Name resolution and expressions *)

(** The columns in scope of a FROM clause, each with its qualifier (the
    alias of the relation it comes from), in the order of the row cells. *)
Definition Scope : Type := list (string * string).

Fixpoint index_where {A} (p : A -> bool) (l : list A) : option nat :=
  match l with
  | [] => None
  | x :: l' => if p x then Some O else option_map S (index_where p l')
  end.

(** An analysed expression computes a cell from the position of the row
    in the result and the row itself. *)
Definition Compiled : Type := nat -> Row -> Value.
Definition Expr : Type := Scope -> Result Compiled.
Definition Cond : Type := Scope -> Result (Row -> bool).

Definition cell (i : nat) (r : Row) : Value := nth i r VNull.

(** An unqualified column name [c]. *)
Definition col (c : string) : Expr := fun sc =>
  match index_where (fun qc => String.eqb (snd qc) c) sc with
  | Some i => Ok (fun _ r => cell i r)
  | None => Err (CannotResolve None c)
  end.

(** A qualified column name [q.c]: [q] has to be an alias of the FROM
    clause and [c] a column of that relation. *)
Definition qcol (q c : string) : Expr := fun sc =>
  match index_where (fun qc => String.eqb (fst qc) q && String.eqb (snd qc) c) sc with
  | Some i => Ok (fun _ r => cell i r)
  | None => Err (CannotResolve (Some q) c)
  end.

(** An analysed expression of type double. *)
Definition DoubleExpr : Type := Scope -> Result (nat -> Row -> option spec_float).

Definition apply1 {A B} (f : A -> B) (e : Scope -> Result (nat -> Row -> A))
  : Scope -> Result (nat -> Row -> B) := fun sc =>
  check g <- e sc in Ok (fun i r => f (g i r)).

Definition div_1000 : Expr -> DoubleExpr := apply1 sql_div_1000.
Definition to_timestamp : DoubleExpr -> Expr := apply1 sql_to_timestamp.
Definition hour : Expr -> Expr := apply1 sql_hour.
Definition dayofmonth : Expr -> Expr := apply1 sql_dayofmonth.
Definition weekofyear : Expr -> Expr := apply1 sql_weekofyear.
Definition month : Expr -> Expr := apply1 sql_month.
Definition year : Expr -> Expr := apply1 sql_year.
Definition dayofweek : Expr -> Expr := apply1 sql_dayofweek.

(** [monotonically_increasing_id()]: the position of the row, the result
    being computed as one partition. *)
Definition monotonically_increasing_id : Expr := fun _ =>
  Ok (fun i _ => VInt (Z.of_nat i)).

Definition is_not_null (e : Expr) : Cond := fun sc =>
  check g <- e sc in Ok (fun r => negb (is_null (g O r))).

Definition eq_ (a b : Expr) : Cond := fun sc =>
  check f <- a sc in check g <- b sc in Ok (fun r => sql_eq (f O r) (g O r)).

Definition and_ (a b : Cond) : Cond := fun sc =>
  check f <- a sc in check g <- b sc in Ok (fun r => f r && g r).

(** ** Relations and queries *)

Record Relation : Type := mkRelation {
  scope : Scope;
  tuples : list Row
}.

Abbreviation Views := (gmap string DataFrame).

(** [FROM name alias] *)
Definition from_view (vs : Views) (name alias : string) : Result Relation :=
  match vs !! name with
  | Some df => Ok {| scope := map (fun c => (alias, c)) (schema df); tuples := rows df |}
  | None => Err (TableOrViewNotFound name)
  end.

(** [FROM (subquery) alias] *)
Definition from_subquery (df : DataFrame) (alias : string) : Relation :=
  {| scope := map (fun c => (alias, c)) (schema df); tuples := rows df |}.

(** [l JOIN r ON c]: the pairs of rows that satisfy [c]. *)
Definition join (l r : Relation) (c : Cond) : Result Relation :=
  let sc := (scope l ++ scope r)%list in
  check p <- c sc in
  Ok {| scope := sc;
        tuples := List.filter p (flat_map (fun a => map (fun b => (a ++ b)%list) (tuples r)) (tuples l)) |}.

(** [... WHERE c] *)
Definition where_ (r : Relation) (c : Cond) : Result Relation :=
  check p <- c (scope r) in
  Ok {| scope := scope r; tuples := List.filter p (tuples r) |}.

Fixpoint map_from {A B} (n : nat) (f : nat -> A -> B) (l : list A) : list B :=
  match l with
  | [] => []
  | x :: l' => f n x :: map_from (S n) f l'
  end.

(** [SELECT e1 AS n1, ...] and [SELECT DISTINCT e1 AS n1, ...] *)
Definition select (distinct : bool) (items : list (Expr * string)) (r : Relation)
  : Result DataFrame :=
  check fs <- sequence (map (fun it => fst it (scope r)) items) in
  let out := map_from O (fun i t => map (fun f : Compiled => f i t) fs) (tuples r) in
  Ok {| schema := map snd items;
        rows := if distinct then remove_dups out else out |}.

(** ** The session *)

(** What a run can see and change: the views registered in the engine
    session, the JSON corpus found under each input glob, and the table
    persisted under each output path. *)
Record Session : Type := mkSession {
  views : Views;
  json_files : gmap string (list JsonObject);
  parquet_files : gmap string DataFrame
}.

(** A statement of the script: it returns or raises, and changes the
    session either way. *)
Definition M (A : Type) : Type := Session -> Result A * Session.

Definition ret {A} (a : A) : M A := fun s => (Ok a, s).

Definition bind {A B} (m : M A) (k : A -> M B) : M B := fun s =>
  match m s with
  | (Ok a, s') => k a s'
  | (Err e, s') => (Err e, s')
  end.

Notation "'perform' x <- m 'in' k" := (bind m (fun x => k))
  (at level 10, x name, m at level 200, k at level 200).

Definition lift {A} (r : Result A) : M A := fun s => (r, s).

(** [spark.read.json(path)] *)
Definition read_json (path : string) : M DataFrame := fun s =>
  match json_files s !! path with
  | Some corpus => (Ok (json_to_df corpus), s)
  | None => (Err (PathNotFound path), s)
  end.

(** [spark.read.parquet(path)].  A table that was written without rows
    has no data file under its path (a partitioned write, as the job's
    write of the one table it reads back, makes its files row by row), and
    the read finds no schema to infer.  The frame read is taken to be the
    frame written: the job binds it to [song_df] and makes no use of it,
    so the order of its columns is not observed. *)
Definition read_parquet (path : string) : M DataFrame := fun s =>
  match parquet_files s !! path with
  | Some df =>
      match rows df with
      | [] => (Err (UnableToInferSchema path), s)
      | _ :: _ => (Ok df, s)
      end
  | None => (Err (PathNotFound path), s)
  end.

(** [df.createOrReplaceTempView(name)] *)
Definition createOrReplaceTempView (df : DataFrame) (name : string) : M unit := fun s =>
  (Ok tt, {| views := <[name := df]> (views s);
             json_files := json_files s;
             parquet_files := parquet_files s |}).

(** [spark.sql(query)]: the statement is analysed and run against the
    views registered in the session. *)
Definition sql (query : Views -> Result DataFrame) : M DataFrame := fun s =>
  (query (views s), s).

(** [df.write.mode('overwrite').partitionBy(cols).parquet(path)]: the table
    under [path] is replaced; what is stored is the frame handed to the
    write.  The partition columns decide the directory layout only, which
    the stored table does not record. *)
Definition write_parquet (partitionBy : list string) (df : DataFrame) (path : string)
  : M unit := fun s =>
  (Ok tt, {| views := views s;
             json_files := json_files s;
             parquet_files := <[path := df]> (parquet_files s) |}).

(** [df.filter(df.page == 'NextSong')] and the like: [df.c] has to name a
    column of [df]. *)
Definition filter_eq (df : DataFrame) (c : string) (v : Value) : Result DataFrame :=
  match index_where (fun x => String.eqb x c) (schema df) with
  | Some i => Ok {| schema := schema df;
                    rows := List.filter (fun r => sql_eq (cell i r) v) (rows df) |}
  | None => Err (CannotResolve None c)
  end.

(** ** The SQL statements of etl.py *)

(** [SELECT song_id, title, artist_id, year, duration
     FROM song_data_table WHERE song_id IS NOT NULL] *)
Definition songs_query (vs : Views) : Result DataFrame :=
  check t <- from_view vs "song_data_table" "song_data_table" in
  check t <- where_ t (is_not_null (col "song_id")) in
  select false
    [ (col "song_id", "song_id");
      (col "title", "title");
      (col "artist_id", "artist_id");
      (col "year", "year");
      (col "duration", "duration") ] t.

(** [SELECT DISTINCT artist_id, artist_name, artist_location,
     artist_latitude, artist_longitude
     FROM song_data_table WHERE artist_id IS NOT NULL] *)
Definition artists_query (vs : Views) : Result DataFrame :=
  check t <- from_view vs "song_data_table" "song_data_table" in
  check t <- where_ t (is_not_null (col "artist_id")) in
  select true
    [ (col "artist_id", "artist_id");
      (col "artist_name", "artist_name");
      (col "artist_location", "artist_location");
      (col "artist_latitude", "artist_latitude");
      (col "artist_longitude", "artist_longitude") ] t.

(** [SELECT DISTINCT userId as user_id, firstName as first_name,
     lastName as last_name, gender as gender, level as level
     FROM log_data_table WHERE userId IS NOT NULL] *)
Definition users_query (vs : Views) : Result DataFrame :=
  check t <- from_view vs "log_data_table" "log_data_table" in
  check t <- where_ t (is_not_null (col "userId")) in
  select true
    [ (col "userId", "user_id");
      (col "firstName", "first_name");
      (col "lastName", "last_name");
      (col "gender", "gender");
      (col "level", "level") ] t.

(** [SELECT temp.time as start_time, hour(temp.time) as hour,
     dayofmonth(temp.time) as day, weekofyear(temp.time) as week,
     month(temp.time) as month, year(temp.time) as year,
     dayofweek(temp.time) as weekday
     FROM (SELECT to_timestamp(log.ts/1000) as time
           FROM log_data_table log WHERE log.ts IS NOT NULL) temp] *)
Definition time_query (vs : Views) : Result DataFrame :=
  check t <- from_view vs "log_data_table" "log" in
  check t <- where_ t (is_not_null (qcol "log" "ts")) in
  check temp <- select false [ (to_timestamp (div_1000 (qcol "log" "ts")), "time") ] t in
  select false
    [ (qcol "temp" "time", "start_time");
      (hour (qcol "temp" "time"), "hour");
      (dayofmonth (qcol "temp" "time"), "day");
      (weekofyear (qcol "temp" "time"), "week");
      (month (qcol "temp" "time"), "month");
      (year (qcol "temp" "time"), "year");
      (dayofweek (qcol "temp" "time"), "weekday") ]
    (from_subquery temp "temp").

(** [FROM log_data_table log
     JOIN song_data_table song
     on log.artist = song.artist_name and log.song = song.title] *)
Definition songplays_from (vs : Views) : Result Relation :=
  check log <- from_view vs "log_data_table" "log" in
  check song <- from_view vs "song_data_table" "song" in
  join log song
    (and_ (eq_ (qcol "log" "artist") (qcol "song" "artist_name"))
          (eq_ (qcol "log" "song") (qcol "song" "title"))).

(** [SELECT monotonically_increasing_id() as songplay_id,
     to_timestamp(logT.ts/1000) as start_time,
     month(to_timestamp(log.ts/1000)) as month,
     year(to_timestamp(log.ts/1000)) as year,
     log.userId as user_id, log.level as level,
     song.song_id as song_id, song.artist_id as artist_id,
     log.sessionId as session_id, log.location as location,
     log.userAgent as user_agent
     FROM ...] *)
Definition songplays_select : list (Expr * string) :=
  [ (monotonically_increasing_id, "songplay_id");
    (to_timestamp (div_1000 (qcol "logT" "ts")), "start_time");
    (month (to_timestamp (div_1000 (qcol "log" "ts"))), "month");
    (year (to_timestamp (div_1000 (qcol "log" "ts"))), "year");
    (qcol "log" "userId", "user_id");
    (qcol "log" "level", "level");
    (qcol "song" "song_id", "song_id");
    (qcol "song" "artist_id", "artist_id");
    (qcol "log" "sessionId", "session_id");
    (qcol "log" "location", "location");
    (qcol "log" "userAgent", "user_agent") ].

Definition songplays_query (vs : Views) : Result DataFrame :=
  check j <- songplays_from vs in
  select false songplays_select j.

(** ** The stages *)

Definition process_song_data (input_data output_data : string) : M unit :=
  let song_data := input_data +:+ "song_data/*/*/*/*.json" in
  perform df <- read_json song_data in
  perform _ <- createOrReplaceTempView df "song_data_table" in
  perform songs_table <- sql songs_query in
  perform _ <- write_parquet ["year"; "artist_id"] songs_table
                 (output_data +:+ "songs_table/") in
  perform artists_table <- sql artists_query in
  write_parquet [] artists_table (output_data +:+ "artists_table/").

Definition process_log_data (input_data output_data : string) : M unit :=
  let log_path := input_data +:+ "log_data/*.json" in
  perform df <- read_json log_path in
  perform df <- lift (filter_eq df "page" (VStr "NextSong")) in
  perform _ <- createOrReplaceTempView df "log_data_table" in
  perform users_table <- sql users_query in
  perform _ <- write_parquet [] users_table (output_data +:+ "users_table/") in
  perform time_table <- sql time_query in
  perform _ <- write_parquet ["year"; "month"] time_table
                 (output_data +:+ "time_table/") in
  perform song_df <- read_parquet (output_data +:+ "songs_table/") in
  perform songplays_table <- sql songplays_query in
  write_parquet ["year"; "month"] songplays_table
    (output_data +:+ "songplays_table/").

Definition input_data : string := "s3://udacity-dend/data/".
Definition output_data : string := "s3://udacity-dend/results/".

(** [SparkSession.builder...getOrCreate()]: the session of the run. *)
Definition create_spark_session : M unit := ret tt.

Definition main : M unit :=
  perform spark <- create_spark_session in
  perform _ <- process_song_data input_data output_data in
  process_log_data input_data output_data.

(** ** What the statements compute, told on the records

    The definitions of this part are not of the script: they say, on the
    JSON records, what the lemmas below prove the statements and stages to
    compute. *)

(** The rows of a relation are the images [enc t] of source tuples [t]
    (the records of a corpus, or pairs of records for a join).  An
    expression compiles to [g] when its analysis succeeds and the compiled
    function reads [g i t] off the row [enc t]; a condition decides [p]
    likewise. *)
Definition compiles {T A} (sc : Scope) (enc : T -> Row)
           (e : Scope -> Result (nat -> Row -> A)) (g : nat -> T -> A) : Prop :=
  exists f, e sc = Ok f /\ forall i t, f i (enc t) = g i t.

Definition decides {T} (sc : Scope) (enc : T -> Row)
           (c : Cond) (p : T -> bool) : Prop :=
  exists f, c sc = Ok f /\ forall t, f (enc t) = p t.

Definition frame (sch : list string) (objs : list JsonObject) : DataFrame :=
  {| schema := sch; rows := map (encode sch) objs |}.

Definition not_null (c : string) (o : JsonObject) : bool :=
  negb (is_null (field o c)).

Definition project (cols : list string) (o : JsonObject) : Row :=
  map (field o) cols.

Definition songs_columns : list string :=
  ["song_id"; "title"; "artist_id"; "year"; "duration"].

Definition artists_columns : list string :=
  ["artist_id"; "artist_name"; "artist_location"; "artist_latitude"; "artist_longitude"].

Definition users_columns : list string :=
  ["userId"; "firstName"; "lastName"; "gender"; "level"].

Definition users_names : list string :=
  ["user_id"; "first_name"; "last_name"; "gender"; "level"].

(** The row of the time table for a value of [ts]. *)
Definition time_row (ts : Value) : Row :=
  let t := sql_to_timestamp (sql_div_1000 ts) in
  [ t; sql_hour t; sql_dayofmonth t; sql_weekofyear t;
    sql_month t; sql_year t; sql_dayofweek t ].

Definition time_names : list string :=
  ["start_time"; "hour"; "day"; "week"; "month"; "year"; "weekday"].

(** The fields of a Time row, told on the calendar itself: on the leap
    years, the lengths of the months and the count of days, and not on
    the functions of [Calendar].  Day 0 is 1970-01-01, a Thursday. *)
Definition is_leap_year (y : Z) : bool :=
  (y mod 4 =? 0) && (negb (y mod 100 =? 0) || (y mod 400 =? 0)).

Definition month_lengths (leap : bool) : list Z :=
  [31; if leap then 29 else 28; 31; 30; 31; 30; 31; 31; 30; 31; 30; 31].

Definition month_length (y m : Z) : Z :=
  nth (Z.to_nat (m - 1)) (month_lengths (is_leap_year y)) 0.

Definition days_before_month (y m : Z) : Z :=
  fold_right Z.add 0 (firstn (Z.to_nat (m - 1)) (month_lengths (is_leap_year y))).

(** The days from 1970-01-01 to the first of January of the year [y]: 365
    for each year and one for each leap year between (477 leap years lie
    before 1970). *)
Definition days_before_year (y : Z) : Z :=
  365 * (y - 1970) + ((y - 1) / 4 - (y - 1) / 100 + (y - 1) / 400 - 477).

(** The day number of the date [y]-[m]-[d]. *)
Definition date_day (y m d : Z) : Z :=
  days_before_year y + days_before_month y m + (d - 1).

(** [time_fields t h d w m y wd]: the timestamp of [t] microseconds lies
    in hour [h] of the day [y]-[m]-[d], whose day number is [n]; [wd]
    numbers its day of the week from Sunday, 1, to Saturday, 7; and [w]
    numbers its week, Monday to Sunday, among the weeks of the year [yw]
    that holds the Thursday [th] of that week. *)
Definition time_fields (t h d w m y wd : Z) : Prop :=
  exists n mi se us th yw,
    t = (((n * 24 + h) * 60 + mi) * 60 + se) * 1000000 + us /\
    0 <= h < 24 /\ 0 <= mi < 60 /\ 0 <= se < 60 /\ 0 <= us < 1000000 /\
    1 <= m <= 12 /\ 1 <= d <= month_length y m /\ n = date_day y m d /\
    1 <= wd <= 7 /\ (n + 5 - wd) mod 7 = 0 /\
    th mod 7 = 0 /\ th - 3 <= n <= th + 3 /\
    date_day yw 1 1 <= th < date_day (yw + 1) 1 1 /\
    w = (th - date_day yw 1 1) / 7 + 1.

(** The start_time of an integer [ts], told on the operations of IEEE
    binary64 as the standard library specifies them: [ts] and 1000 are
    rounded to doubles and so is their quotient [q]; the product of [q]
    and 1000000 is rounded again; its integer part, towards zero, is kept
    within the 64 bits of a timestamp. *)
Definition start_time_of (ts : Z) (v : Value) : Prop :=
  let q := SFdiv 53 1024 (binary_normalize 53 1024 ts 0 false)
                         (binary_normalize 53 1024 1000 0 false) in
  match q with
  | S754_nan | S754_infinity _ => v = VNull
  | _ =>
      match SFmul 53 1024 q (binary_normalize 53 1024 1000000 0 false) with
      | S754_finite s m e =>
          v = VTimestamp
                (Z.max (- 2 ^ 63)
                   (Z.min (2 ^ 63 - 1)
                      (Z.quot ((if s then Z.neg m else Z.pos m) * 2 ^ Z.max 0 e)
                              (2 ^ Z.max 0 (- e)))))
      | S754_infinity s => v = VTimestamp (if s then - 2 ^ 63 else 2 ^ 63 - 1)
      | _ => v = VTimestamp 0
      end
  end.

Definition null_time_row : Row :=
  [VNull; VNull; VNull; VNull; VNull; VNull; VNull].

(** The join of the songplays statement: a log record and a song record
    are paired when artist and title agree (and are not NULL). *)
Definition matches (t : JsonObject * JsonObject) : bool :=
  sql_eq (field (fst t) "artist") (field (snd t) "artist_name") &&
  sql_eq (field (fst t) "song") (field (snd t) "title").

Definition joined_row (sl ss : list string) (t : JsonObject * JsonObject) : Row :=
  (encode sl (fst t) ++ encode ss (snd t))%list.

Definition joined_scope (sl ss : list string) : Scope :=
  (map (fun c => ("log", c)) sl ++ map (fun c => ("song", c)) ss)%list.

Definition songs_of (corpus : list JsonObject) : DataFrame :=
  {| schema := songs_columns;
     rows := map (project songs_columns) (List.filter (not_null "song_id") corpus) |}.

Definition artists_of (corpus : list JsonObject) : DataFrame :=
  {| schema := artists_columns;
     rows := remove_dups
               (map (project artists_columns) (List.filter (not_null "artist_id") corpus)) |}.

(** The log records that pass [df.filter(df.page == 'NextSong')]. *)
Definition played (logs : list JsonObject) : list JsonObject :=
  List.filter (fun o => sql_eq (field o "page") (VStr "NextSong")) logs.

Definition users_of (logs : list JsonObject) : DataFrame :=
  {| schema := users_names;
     rows := remove_dups
               (map (project users_columns) (List.filter (not_null "userId") (played logs))) |}.

Definition time_of (logs : list JsonObject) : DataFrame :=
  {| schema := time_names;
     rows := map (fun o => time_row (field o "ts"))
                 (List.filter (not_null "ts") (played logs)) |}.

Definition song_glob (inp : string) : string := inp +:+ "song_data/*/*/*/*.json".
Definition log_glob (inp : string) : string := inp +:+ "log_data/*.json".

(** The columns that the statements of the event-log stage name before the
    songplays statement. *)
Definition log_columns : list string :=
  ["page"; "userId"; "firstName"; "lastName"; "gender"; "level"; "ts"].

Definition song_columns_needed : list string :=
  (songs_columns ++ artists_columns)%list.

(** The tables a run writes, latest first, laid over the stored ones. *)
Definition apply_writes (ws : list (string * DataFrame)) (m : gmap string DataFrame)
  : gmap string DataFrame :=
  fold_right (fun kv m' => <[fst kv := snd kv]> m') m ws.

Fixpoint written (ws : list (string * DataFrame)) (k : string) : option DataFrame :=
  match ws with
  | [] => None
  | (k', v) :: ws' => if String.eqb k' k then Some v else written ws' k
  end.

(** ** Sample corpora *)

Definition song_S1 : JsonObject :=
  [ ("song_id", VStr "S1"); ("title", VStr "T1"); ("artist_id", VStr "A1");
    ("artist_name", VStr "ArtistX"); ("year", VInt 2000);
    ("duration", VDouble 200000000);
    ("artist_location", VNull); ("artist_latitude", VNull);
    ("artist_longitude", VNull) ].

(** A catalog record without a song_id, for the same title and artist. *)
Definition song_unkeyed : JsonObject :=
  [ ("song_id", VNull); ("title", VStr "T1"); ("artist_id", VStr "A1");
    ("artist_name", VStr "ArtistX"); ("year", VInt 2000);
    ("duration", VDouble 200000000);
    ("artist_location", VNull); ("artist_latitude", VNull);
    ("artist_longitude", VNull) ].

Definition catalog_session : Session :=
  {| views := ∅;
     json_files := {[ song_glob input_data := [song_S1; song_unkeyed; song_S1] ]};
     parquet_files := ∅ |}.

Definition log_event (user level : string) (ts : Z) : JsonObject :=
  [ ("page", VStr "NextSong"); ("artist", VStr "ArtistX"); ("song", VStr "T1");
    ("userId", VStr user); ("ts", VInt ts); ("sessionId", VInt 1);
    ("level", VStr level); ("location", VStr "NY"); ("userAgent", VStr "UA");
    ("firstName", VNull); ("lastName", VNull); ("gender", VNull) ].

(** One listener, first on the free and then on the paid level. *)
Definition upgrade_session : Session :=
  {| views := ∅;
     json_files :=
       {[ song_glob input_data := [song_S1];
          log_glob input_data := [ log_event "7" "free" 1541106106796;
                                   log_event "7" "paid" 1541106132796;
                                   log_event "7" "paid" 1541106352796 ] ]};
     parquet_files := ∅ |}.

(** Two listeners start a song in the same millisecond. *)
Definition simultaneous_session : Session :=
  {| views := ∅;
     json_files :=
       {[ song_glob input_data := [song_S1];
          log_glob input_data := [ log_event "7" "free" 1541106106796;
                                   log_event "8" "free" 1541106106796 ] ]};
     parquet_files := ∅ |}.

Definition song_S2 : JsonObject :=
  [ ("song_id", VStr "S2"); ("title", VStr "T1"); ("artist_id", VStr "A1");
    ("artist_name", VStr "ArtistX"); ("year", VInt 2011);
    ("duration", VDouble 215000000);
    ("artist_location", VNull); ("artist_latitude", VNull);
    ("artist_longitude", VNull) ].

(** One play of a title that the catalog lists twice. *)
Definition duplicate_title_session : Session :=
  {| views := ∅;
     json_files :=
       {[ song_glob input_data := [song_S1; song_S2];
          log_glob input_data := [ log_event "7" "free" 1541106106796 ] ]};
     parquet_files := ∅ |}.

(** One play of a title whose only catalog record has no song_id. *)
Definition unkeyed_session : Session :=
  {| views := ∅;
     json_files :=
       {[ song_glob input_data := [song_unkeyed];
          log_glob input_data := [ log_event "7" "free" 1541106106796 ] ]};
     parquet_files := ∅ |}.

(** A new session over the output of an earlier run of the song stage. *)
Definition resumed_session : Session :=
  {| views := ∅;
     json_files := {[ log_glob input_data := [ log_event "7" "free" 1541106106796 ] ]};
     parquet_files := {[ output_data +:+ "songs_table/" := songs_of [song_S1] ]} |}.

(** A catalog of one keyed and one unkeyed record, and one play. *)
Definition mixed_catalog_session : Session :=
  {| views := ∅;
     json_files :=
       {[ song_glob input_data := [song_S1; song_unkeyed];
          log_glob input_data := [ log_event "7" "free" 1541106106796 ] ]};
     parquet_files := ∅ |}.

(** The two records as the scenario writes them. *)
Definition scenario_song : JsonObject :=
  [ ("song_id", VStr "S1"); ("title", VStr "T1"); ("artist_id", VStr "A1");
    ("artist_name", VStr "ArtistX"); ("year", VInt 2000);
    ("duration", VDouble 200000000) ].

Definition scenario_log : JsonObject :=
  [ ("page", VStr "NextSong"); ("artist", VStr "ArtistX"); ("song", VStr "T1");
    ("userId", VStr "7"); ("ts", VInt 1541106106796); ("sessionId", VInt 1);
    ("level", VStr "free"); ("location", VStr "NY"); ("userAgent", VStr "UA") ].

Definition scenario_session : Session :=
  {| views := ∅;
     json_files := {[ song_glob input_data := [scenario_song];
                      log_glob input_data := [scenario_log] ]};
     parquet_files := ∅ |}.

(** The same records with the fields the scenario leaves out, as nulls. *)
Definition scenario_session_all_fields : Session :=
  {| views := ∅;
     json_files := {[ song_glob input_data := [song_S1];
                      log_glob input_data := [ log_event "7" "free" 1541106106796 ] ]};
     parquet_files := ∅ |}.

(** ** Notions for the error and edge behaviour of the stages *)

(** The first of the columns [cols], in the order the statement names
    them, that the schema [sch] does not have. *)
Definition first_missing (cols sch : list string) : option string :=
  find (fun c => negb (existsb (String.eqb c) sch)) cols.

(** A frame is rectangular when each row has a cell for each column. *)
Definition rectangular (df : DataFrame) : Prop :=
  Forall (fun r => length r = length (schema df)) (rows df).

(** The errors of name resolution. *)
Definition unresolved (e : Error) : Prop :=
  match e with
  | CannotResolve _ _ => True
  | _ => False
  end.

(** An expression, or a condition, whose analysis fails with an error of
    name resolution when it fails. *)
Definition fails_unresolved {A} (e : Scope -> Result A) : Prop :=
  forall sc err, e sc = Err err -> unresolved err.

(** ** Further sample corpora *)

(** A catalog whose records carry no title. *)
Definition untitled_catalog_session : Session :=
  {| views := ∅;
     json_files :=
       {[ song_glob input_data :=
            [ [ ("song_id", VStr "S1"); ("artist_id", VStr "A1");
                ("artist_name", VStr "ArtistX"); ("year", VInt 2000);
                ("duration", VDouble 200000000) ] ] ]};
     parquet_files := {[ output_data +:+ "songs_table/" := songs_of [song_S2] ]} |}.

(** A session that holds views and tables of an earlier job. *)
Definition used_session : Session :=
  {| views := {[ "song_data_table" := json_to_df [song_unkeyed];
                 "staging" := json_to_df [song_S2] ]};
     json_files :=
       {[ song_glob input_data := [song_S1];
          log_glob input_data := [ log_event "7" "free" 1541106106796 ] ]};
     parquet_files :=
       {[ output_data +:+ "songs_table/" := songs_of [song_S2];
          output_data +:+ "songplays_table/" := songs_of [song_S2];
          "s3://udacity-dend/archive/" := songs_of [song_S1; song_S2] ]} |}.

(** A visit of the home page, which is no play. *)
Definition page_view (user : string) (ts : Z) : JsonObject :=
  [ ("page", VStr "Home"); ("artist", VNull); ("song", VNull);
    ("userId", VStr user); ("ts", VInt ts); ("sessionId", VInt 2);
    ("level", VStr "paid"); ("location", VStr "CA"); ("userAgent", VStr "UA");
    ("firstName", VStr "Ann"); ("lastName", VStr "Lee"); ("gender", VStr "F") ].

Definition plays_session : Session :=
  {| views := ∅;
     json_files := {[ log_glob input_data := [ log_event "7" "free" 1541106106796 ] ]};
     parquet_files := ∅ |}.

Definition plays_and_visits_session : Session :=
  {| views := ∅;
     json_files :=
       {[ log_glob input_data := [ page_view "9" 1541106100000;
                                   log_event "7" "free" 1541106106796;
                                   page_view "7" 1541106200000 ] ]};
     parquet_files := ∅ |}.

Definition visits_session : Session :=
  {| views := ∅;
     json_files :=
       {[ log_glob input_data := [ page_view "9" 1541106100000;
                                   page_view "7" 1541106200000 ] ]};
     parquet_files := ∅ |}.

(** Log records without a page, and log records without a ts. *)
Definition pageless_session : Session :=
  {| views := ∅;
     json_files :=
       {[ log_glob input_data := [ [ ("userId", VStr "7"); ("ts", VInt 1541106106796) ] ] ]};
     parquet_files := ∅ |}.

Definition undated_session : Session :=
  {| views := ∅;
     json_files :=
       {[ log_glob input_data :=
            [ [ ("page", VStr "NextSong"); ("userId", VStr "7");
                ("firstName", VNull); ("lastName", VNull); ("gender", VNull);
                ("level", VStr "free") ] ] ]};
     parquet_files := ∅ |}.

(** * Properties *)

(** ** Calendar *)

Example civil_from_days_epoch :
  Calendar.civil_from_days 0 = (1970, 1, 1).
Proof. reflexivity. Qed.

Example civil_from_days_leap_day :
  Calendar.civil_from_days (Calendar.days_from_civil 2016 2 29) = (2016, 2, 29) /\
  Calendar.civil_from_days (Calendar.days_from_civil 2016 2 29 + 1) = (2016, 3, 1).
Proof. split; reflexivity. Qed.

(** 2021-01-03, a Sunday, closes ISO week 53 of 2020; 2018-12-31, a Monday,
    opens week 1 of 2019. *)
Example weekofyear_at_year_ends :
  Calendar.weekofyear_of (Calendar.days_from_civil 2021 1 3 * 86400000000) = 53 /\
  Calendar.dayofweek_of (Calendar.days_from_civil 2021 1 3 * 86400000000) = 1 /\
  Calendar.weekofyear_of (Calendar.days_from_civil 2018 12 31 * 86400000000) = 1 /\
  Calendar.dayofweek_of (Calendar.days_from_civil 2018 12 31 * 86400000000) = 2.
Proof. repeat split; reflexivity. Qed.

(** Quotients and remainders by constants, for [lia]. *)
#[local] Ltac Zify.zify_post_hook ::= Z.to_euclidean_division_equations.

(** The date of a day number is a month and a day in range, is the date
    that [days_from_civil] counts back to that day, and lies in its year. *)
Lemma civil_from_days_fields (d : Z) :
  let '(y, m, dd) := Calendar.civil_from_days d in
  1 <= m <= 12 /\ 1 <= dd <= 31 /\ Calendar.days_from_civil y m dd = d /\
  0 <= d - Calendar.days_from_civil y 1 1 <= 365.
Proof.
  unfold Calendar.civil_from_days, Calendar.days_from_civil.
  change ((153 * (1 + 9) + 2) / 5 + 1 - 1) with 306.
  change (1 <=? 2) with true. cbv iota.
  set (z := d + 719468).
  set (era := z / 146097). set (doe := z mod 146097).
  assert (Hdoe : 0 <= doe < 146097) by (subst doe; apply Z.mod_pos_bound; lia).
  assert (Hz : z = era * 146097 + doe) by (subst era doe; lia).
  set (yoe := (doe - doe / 1460 + doe / 36524 - doe / 146096) / 365).
  set (doy := doe - (365 * yoe + yoe / 4 - yoe / 100)).
  assert (Hy : 0 <= yoe <= 399 /\ 0 <= doy <= 365) by (subst doy yoe; lia).
  set (mp := (5 * doy + 2) / 153).
  assert (Hmp : 0 <= mp <= 11) by (subst mp; lia).
  assert (Hday : 1 <= doy - (153 * mp + 2) / 5 + 1 <= 31) by (subst mp; lia).
  assert (Hmpd : mp < 10 <-> doy < 306) by (subst mp; lia).
  assert (Hq : (era * 400 + yoe) / 400 = era) by (clear - Hy; lia).
  assert (Hr : (era * 400 + yoe) mod 400 = yoe) by (clear - Hy; lia).
  destruct (mp <? 10) eqn:E; [apply Z.ltb_lt in E|apply Z.ltb_ge in E].
  - replace (mp + 3 <=? 2) with false by (symmetry; apply Z.leb_gt; lia).
    replace (mp + 3 - 3) with mp by lia.
    replace (yoe + era * 400 + 0) with (era * 400 + yoe) by lia.
    rewrite Hq, Hr.
    split; [lia|]. split; [exact Hday|]. split; [subst doy; lia|].
    assert (Hprev :
              exists len, 365 <= len <= 366 /\
              ((era * 400 + yoe - 1) / 400) * 146097 +
              (((era * 400 + yoe - 1) mod 400) * 365 +
               ((era * 400 + yoe - 1) mod 400) / 4 -
               ((era * 400 + yoe - 1) mod 400) / 100) =
              era * 146097 + (yoe * 365 + yoe / 4 - yoe / 100) - len).
    { clear - Hy. destruct Hy as [Hy _].
      destruct (Z.eq_dec yoe 0) as [->|Hne].
      - exists 366. split; [lia|].
        replace (era * 400 + 0 - 1) with ((era - 1) * 400 + 399) by lia.
        assert (H : ((era - 1) * 400 + 399) / 400 = era - 1) by lia.
        assert (H0 : ((era - 1) * 400 + 399) mod 400 = 399) by lia.
        rewrite H, H0. change (399 / 4) with 99. change (399 / 100) with 3.
        change (0 / 4) with 0. change (0 / 100) with 0. lia.
      - exists (365 + (yoe / 4 - (yoe - 1) / 4) - (yoe / 100 - (yoe - 1) / 100)).
        split; [lia|].
        replace (era * 400 + yoe - 1) with (era * 400 + (yoe - 1)) by lia.
        assert (H : (era * 400 + (yoe - 1)) / 400 = era) by lia.
        assert (H0 : (era * 400 + (yoe - 1)) mod 400 = yoe - 1) by lia.
        rewrite H, H0. lia. }
    destruct Hprev as (len & Hlen & Hprev).
    subst doy z. lia.
  - replace (mp - 9 <=? 2) with true by (symmetry; apply Z.leb_le; lia).
    replace (mp - 9 + 9) with mp by lia.
    replace (yoe + era * 400 + 1 - 1) with (era * 400 + yoe) by lia.
    rewrite Hq, Hr.
    split; [lia|]. split; [exact Hday|]. split; [subst doy; lia|].
    subst doy z. lia.
Qed.

(** The days of the eras and of the years of the era, before the first
    of March of a year. *)
Lemma days_to_march (y : Z) :
  y / 400 * 146097 + (y mod 400 * 365 + y mod 400 / 4 - y mod 400 / 100) =
  365 * y + y / 4 - y / 100 + y / 400.
Proof. lia. Qed.

(** A quotient by [k] steps up at the multiples of [k]. *)
Lemma leap_step (y k : Z) :
  0 < k ->
  (y mod k =? 0) = true /\ y / k = (y - 1) / k + 1 \/
  (y mod k =? 0) = false /\ y / k = (y - 1) / k.
Proof.
  intros Hk. destruct (y mod k =? 0) eqn:E;
    [apply Z.eqb_eq in E; left|apply Z.eqb_neq in E; right]; split; try reflexivity; nia.
Qed.



(** [days_from_civil] counts 365 days a year, the leap days, and the days
    of the months before. *)
Lemma days_from_civil_gregorian (y m d : Z) :
  1 <= m <= 12 -> Calendar.days_from_civil y m d =
    365 * (y - 1) + (y - 1) / 4 - (y - 1) / 100 + (y - 1) / 400
    + (367 * m - 362) / 12
    + (if m <=? 2 then 0
       else if (y mod 4 =? 0) && (negb (y mod 100 =? 0) || (y mod 400 =? 0))
            then -1 else -2)
    + d - 719163.
Proof.
  intros Hm. unfold Calendar.days_from_civil.
  destruct (m <=? 2) eqn:E; [apply Z.leb_le in E|apply Z.leb_gt in E].
  - pose proof (days_to_march (y - 1)) as H.
    assert (Hc : m = 1 \/ m = 2) by lia.
    destruct Hc as [-> | ->]; cbn -[Z.div Z.modulo Z.mul Z.add Z.sub] in *; lia.
  - pose proof (days_to_march y) as H.
    assert (Hd : (153 * (m - 3) + 2) / 5 = (367 * m - 362) / 12 - 61).
    { assert (Hc : m = 3 \/ m = 4 \/ m = 5 \/ m = 6 \/ m = 7 \/ m = 8 \/ m = 9 \/
                   m = 10 \/ m = 11 \/ m = 12) by lia.
      repeat (destruct Hc as [->|Hc]); try subst m; reflexivity. }
    assert (Hcons : (y mod 100 =? 0) = true -> (y mod 4 =? 0) = true).
    { rewrite !Z.eqb_eq. lia. }
    assert (Hcons2 : (y mod 400 =? 0) = true -> (y mod 100 =? 0) = true).
    { rewrite !Z.eqb_eq. lia. }
    rewrite Hd. clear Hd.
    generalize dependent ((367 * m - 362) / 12). intros c.
    destruct (leap_step y 4 ltac:(lia)) as [[E4 H4]|[E4 H4]];
      destruct (leap_step y 100 ltac:(lia)) as [[E100 H100]|[E100 H100]];
      destruct (leap_step y 400 ltac:(lia)) as [[E400 H400]|[E400 H400]];
      rewrite E4, E100, E400 in *; cbn [andb orb negb];
      try (specialize (Hcons eq_refl); discriminate);
      try (specialize (Hcons2 eq_refl); discriminate);
      clear Hcons Hcons2 E4 E100 E400;
      generalize dependent (y mod 400 * 365 + y mod 400 / 4 - y mod 400 / 100);
      intros; lia.
Qed.

(** A day lies before the first of the month after its own, and before
    the first of January of the year after its own. *)
Lemma civil_from_days_next (d : Z) :
  let '(y, m, dd) := Calendar.civil_from_days d in
  d < (if m =? 12 then Calendar.days_from_civil (y + 1) 1 1
       else Calendar.days_from_civil y (m + 1) 1) /\
  d < Calendar.days_from_civil (y + 1) 1 1.
Proof.
  unfold Calendar.civil_from_days.
  set (z := d + 719468).
  set (era := z / 146097). set (doe := z mod 146097).
  assert (Hdoe : 0 <= doe < 146097) by (subst doe; apply Z.mod_pos_bound; lia).
  assert (Hz : d = era * 146097 + doe - 719468) by (subst era doe z; lia).
  set (yoe := (doe - doe / 1460 + doe / 36524 - doe / 146096) / 365).
  set (doy := doe - (365 * yoe + yoe / 4 - yoe / 100)).
  assert (Hy : 0 <= yoe <= 399 /\ 0 <= doy <= 365) by (subst doy yoe; lia).
  assert (Hnext : yoe < 399 -> doe < (yoe + 1) * 365 + (yoe + 1) / 4 - (yoe + 1) / 100)
    by (subst yoe; lia).
  set (mp := (5 * doy + 2) / 153).
  assert (Hmp : 0 <= mp <= 11) by (subst mp; lia).
  assert (Hup : mp <= 10 -> doy < (153 * (mp + 1) + 2) / 5) by (subst mp; lia).
  assert (Hmpd : mp < 10 <-> doy < 306) by (subst mp; lia).
  assert (Hdoy : doe = yoe * 365 + yoe / 4 - yoe / 100 + doy) by (subst doy; lia).
  assert (Hq : (era * 400 + yoe) / 400 = era) by (clear - Hy; lia).
  assert (Hr : (era * 400 + yoe) mod 400 = yoe) by (clear - Hy; lia).
  assert (Hmarch :
            doe < ((era * 400 + yoe + 1) / 400 - era) * 146097 +
                  ((era * 400 + yoe + 1) mod 400 * 365 +
                   (era * 400 + yoe + 1) mod 400 / 4 -
                   (era * 400 + yoe + 1) mod 400 / 100)).
  { destruct (Z.eq_dec yoe 399) as [E|E].
    - rewrite E. replace (era * 400 + 399 + 1) with ((era + 1) * 400 + 0) by lia.
      assert (H1 : ((era + 1) * 400 + 0) / 400 = era + 1) by lia.
      assert (H2 : ((era + 1) * 400 + 0) mod 400 = 0) by lia.
      rewrite H1, H2. change (0 / 4) with 0. change (0 / 100) with 0. lia.
    - replace (era * 400 + yoe + 1) with (era * 400 + (yoe + 1)) by lia.
      assert (H1 : (era * 400 + (yoe + 1)) / 400 = era) by (clear - Hy E; lia).
      assert (H2 : (era * 400 + (yoe + 1)) mod 400 = yoe + 1) by (clear - Hy E; lia).
      rewrite H1, H2. specialize (Hnext ltac:(lia)). lia. }
  clearbody doy yoe doe era mp. clear z.
  unfold Calendar.days_from_civil.
  change (1 <=? 2) with true. cbv iota.
  change ((153 * (1 + 9) + 2) / 5 + 1 - 1) with 306.
  destruct (mp <? 10) eqn:E; [apply Z.ltb_lt in E|apply Z.ltb_ge in E].
  - replace (mp + 3 <=? 2) with false by (symmetry; apply Z.leb_gt; lia).
    replace (yoe + era * 400 + 0 + 1 - 1) with (era * 400 + yoe) by lia.
    replace (yoe + era * 400 + 0) with (era * 400 + yoe) by lia.
    rewrite Hq, Hr. split; [|lia].
    destruct (mp + 3 =? 12) eqn:E12; [apply Z.eqb_eq in E12|apply Z.eqb_neq in E12].
    + lia.
    + replace (mp + 3 + 1 <=? 2) with false by (symmetry; apply Z.leb_gt; lia).
      rewrite Hq, Hr. replace (mp + 3 + 1 - 3) with (mp + 1) by lia.
      specialize (Hup ltac:(lia)). lia.
  - replace (mp - 9 <=? 2) with true by (symmetry; apply Z.leb_le; lia).
    replace (mp - 9 =? 12) with false by (symmetry; apply Z.eqb_neq; lia).
    replace (yoe + era * 400 + 1 + 1 - 1) with (era * 400 + yoe + 1) by lia.
    split.
    + assert (Hc : mp = 10 \/ mp = 11) by lia. destruct Hc as [-> | ->].
      * change (10 - 9 + 1 <=? 2) with true. cbv iota.
        replace (yoe + era * 400 + 1 - 1) with (era * 400 + yoe) by lia.
        rewrite Hq, Hr. change ((153 * (10 - 9 + 1 + 9) + 2) / 5 + 1 - 1) with 337.
        specialize (Hup ltac:(lia)). change ((153 * (10 + 1) + 2) / 5) with 337 in Hup. lia.
      * change (11 - 9 + 1 <=? 2) with false. cbv iota.
        replace (yoe + era * 400 + 1) with (era * 400 + yoe + 1) by lia.
        change ((153 * (11 - 9 + 1 - 3) + 2) / 5 + 1 - 1) with 0. lia.
    + lia.
Qed.

(** The lengths of the months before month [m], summed. *)
Lemma days_before_month_sum (b : bool) (m : Z) :
  1 <= m <= 12 ->
  fold_right Z.add 0 (firstn (Z.to_nat (m - 1)) (month_lengths b)) =
  (367 * m - 362) / 12 + (if m <=? 2 then 0 else if b then -1 else -2).
Proof.
  intros Hm.
  assert (Hc : m = 1 \/ m = 2 \/ m = 3 \/ m = 4 \/ m = 5 \/ m = 6 \/ m = 7 \/ m = 8 \/
               m = 9 \/ m = 10 \/ m = 11 \/ m = 12) by lia.
  repeat (destruct Hc as [->|Hc]); try subst m; destruct b; reflexivity.
Qed.

(** [days_from_civil] is the day number of the calendar. *)
Lemma days_from_civil_date_day (y m d : Z) :
  1 <= m <= 12 -> Calendar.days_from_civil y m d = date_day y m d.
Proof.
  intros Hm. rewrite days_from_civil_gregorian by exact Hm.
  unfold date_day, days_before_month, days_before_year.
  rewrite days_before_month_sum by exact Hm. unfold is_leap_year. lia.
Qed.

(** A year has 365 days, a leap year 366. *)
Lemma days_before_next_year (y : Z) :
  days_before_year (y + 1) = days_before_year y + (if is_leap_year y then 366 else 365).
Proof.
  unfold days_before_year, is_leap_year.
  replace (y + 1 - 1) with y by lia.
  assert (Hcons : (y mod 100 =? 0) = true -> (y mod 4 =? 0) = true).
  { rewrite !Z.eqb_eq. lia. }
  assert (Hcons2 : (y mod 400 =? 0) = true -> (y mod 100 =? 0) = true).
  { rewrite !Z.eqb_eq. lia. }
  destruct (leap_step y 4 ltac:(lia)) as [[E4 H4]|[E4 H4]];
    destruct (leap_step y 100 ltac:(lia)) as [[E100 H100]|[E100 H100]];
    destruct (leap_step y 400 ltac:(lia)) as [[E400 H400]|[E400 H400]];
    rewrite E4, E100, E400 in *; cbn [andb orb negb];
    try (specialize (Hcons eq_refl); discriminate);
    try (specialize (Hcons2 eq_refl); discriminate); lia.
Qed.

(** The first of the next month comes a month length after the first of
    this one. *)
Lemma date_day_next_month (y m : Z) :
  1 <= m <= 12 ->
  (if m =? 12 then date_day (y + 1) 1 1 else date_day y (m + 1) 1) =
  date_day y m 1 + month_length y m.
Proof.
  intros Hm. unfold date_day, days_before_month, month_length.
  rewrite days_before_next_year.
  assert (Hc : m = 1 \/ m = 2 \/ m = 3 \/ m = 4 \/ m = 5 \/ m = 6 \/ m = 7 \/ m = 8 \/
               m = 9 \/ m = 10 \/ m = 11 \/ m = 12) by lia.
  generalize (is_leap_year (y + 1)). generalize (is_leap_year y). intros b b'.
  generalize (days_before_year y). intros c.
  repeat (destruct Hc as [->|Hc]); try subst m; destruct b;
    cbn [Z.eqb Pos.eqb]; cbv [month_lengths];
    repeat match goal with
           | |- context [Z.to_nat ?k] =>
               let n := eval vm_compute in (Z.to_nat k) in change (Z.to_nat k) with n
           end;
    cbn [firstn nth fold_right]; lia.
Qed.

(** The functions of [Calendar] give the fields of the calendar. *)
Lemma time_fields_of (t : Z) :
  time_fields t (Calendar.hour_of t) (Calendar.dayofmonth_of t) (Calendar.weekofyear_of t)
              (Calendar.month_of t) (Calendar.year_of t) (Calendar.dayofweek_of t).
Proof.
  set (n := Calendar.epoch_day t).
  set (th := n - (n + 3) mod 7 + 3).
  exists n, (Calendar.minute_of t), (Calendar.second_of t), (t mod 1000000), th,
    (fst (fst (Calendar.civil_from_days th))).
  unfold Calendar.weekofyear_of. cbv zeta. fold n. fold th.
  pose proof (civil_from_days_fields th) as Hth.
  pose proof (civil_from_days_next th) as Hth'.
  destruct (Calendar.civil_from_days th) as [[yw mw] dw]. cbn [fst snd].
  destruct Hth as (Hmw & Hdw & Eth & Hjan). destruct Hth' as (_ & Hnext).
  rewrite !days_from_civil_date_day in Hjan, Hnext by lia.
  rewrite (days_from_civil_date_day yw 1 1) by lia.
  unfold Calendar.hour_of, Calendar.minute_of, Calendar.second_of, Calendar.dayofmonth_of,
    Calendar.month_of, Calendar.year_of, Calendar.dayofweek_of, Calendar.second_of_day.
  fold n.
  pose proof (civil_from_days_fields n) as Hn.
  pose proof (civil_from_days_next n) as Hn'.
  destruct (Calendar.civil_from_days n) as [[y m] d]. cbn [fst snd].
  destruct Hn as (Hm & Hd & En & _). destruct Hn' as (Hmonth & _).
  assert (Hmonth' : n < date_day y m 1 + month_length y m).
  { rewrite <- date_day_next_month by exact Hm.
    destruct (m =? 12) eqn:E12; [|apply Z.eqb_neq in E12];
      rewrite <- days_from_civil_date_day by lia; exact Hmonth. }
  rewrite days_from_civil_date_day in En by exact Hm.
  assert (Ed : date_day y m d = date_day y m 1 + (d - 1)) by (unfold date_day; lia).
  subst n th. unfold Calendar.epoch_day, Calendar.epoch_second,
    Calendar.MICROS_PER_SECOND, Calendar.SECONDS_PER_DAY in *.
  generalize dependent (date_day yw 1 1). generalize dependent (date_day (yw + 1) 1 1).
  generalize dependent (date_day y m 1). generalize dependent (date_day y m d).
  generalize dependent (month_length y m).
  intros. repeat split; try lia.
Qed.

Lemma days_before_year_mono (y y' : Z) :
  y < y' -> days_before_year (y + 1) <= days_before_year y'.
Proof.
  intros H. destruct (Z.eq_dec y' (y + 1)) as [->|Hne]; [lia|].
  unfold days_before_year. lia.
Qed.

Lemma date_day_in_year (y m d : Z) :
  1 <= m <= 12 -> 1 <= d <= month_length y m ->
  days_before_year y <= date_day y m d < days_before_year (y + 1).
Proof.
  intros Hm. rewrite days_before_next_year.
  unfold date_day, days_before_month, month_length.
  assert (Hc : m = 1 \/ m = 2 \/ m = 3 \/ m = 4 \/ m = 5 \/ m = 6 \/ m = 7 \/ m = 8 \/
               m = 9 \/ m = 10 \/ m = 11 \/ m = 12) by lia.
  generalize (is_leap_year y). intros b.
  generalize (days_before_year y). intros c.
  repeat (destruct Hc as [->|Hc]); try subst m; destruct b;
    cbv [month_lengths];
    repeat match goal with
           | |- context [Z.to_nat ?k] =>
               let n := eval vm_compute in (Z.to_nat k) in change (Z.to_nat k) with n
           end;
    cbn [firstn nth fold_right]; lia.
Qed.

Lemma date_day_january (y : Z) : date_day y 1 1 = days_before_year y.
Proof. unfold date_day, days_before_month. change (Z.to_nat (1 - 1)) with 0%nat. simpl. lia. Qed.

Lemma year_unique (n y y' : Z) :
  days_before_year y <= n < days_before_year (y + 1) ->
  days_before_year y' <= n < days_before_year (y' + 1) ->
  y = y'.
Proof.
  intros H H'.
  destruct (Z.lt_trichotomy y y') as [L|[E|L]]; [|exact E|];
    apply days_before_year_mono in L; lia.
Qed.

Lemma date_unique (y m d m' d' : Z) :
  1 <= m <= 12 -> 1 <= d <= month_length y m ->
  1 <= m' <= 12 -> 1 <= d' <= month_length y m' ->
  date_day y m d = date_day y m' d' -> m = m' /\ d = d'.
Proof.
  intros Hm Hd Hm' Hd'.
  unfold date_day, days_before_month, month_length in *.
  assert (Hc : m = 1 \/ m = 2 \/ m = 3 \/ m = 4 \/ m = 5 \/ m = 6 \/ m = 7 \/ m = 8 \/
               m = 9 \/ m = 10 \/ m = 11 \/ m = 12) by lia.
  assert (Hc' : m' = 1 \/ m' = 2 \/ m' = 3 \/ m' = 4 \/ m' = 5 \/ m' = 6 \/ m' = 7 \/
                m' = 8 \/ m' = 9 \/ m' = 10 \/ m' = 11 \/ m' = 12) by lia.
  clear Hm Hm'. revert Hd Hd'.
  generalize (is_leap_year y). intros b.
  generalize (days_before_year y). intros c.
  repeat (destruct Hc as [->|Hc]); try subst m;
    repeat (destruct Hc' as [->|Hc']); try subst m'; destruct b;
    cbv [month_lengths];
    repeat match goal with
           | |- context [Z.to_nat ?k] =>
               let n := eval vm_compute in (Z.to_nat k) in change (Z.to_nat k) with n
           end;
    cbn [firstn nth fold_right]; lia.
Qed.

(** A timestamp has but one hour, date, week and weekday. *)
Lemma time_fields_unique (t h d w m y wd h' d' w' m' y' wd' : Z) :
  time_fields t h d w m y wd -> time_fields t h' d' w' m' y' wd' ->
  h = h' /\ d = d' /\ w = w' /\ m = m' /\ y = y' /\ wd = wd'.
Proof.
  intros (n & mi & se & us & th & yw & Et & Hh & Hmi & Hse & Hus & Hm & Hd & En &
          Hwd & Ewd & Eth & Hth & Hyw & Ew)
         (n' & mi' & se' & us' & th' & yw' & Et' & Hh' & Hmi' & Hse' & Hus' & Hm' & Hd' & En' &
          Hwd' & Ewd' & Eth' & Hth' & Hyw' & Ew').
  assert (Hn : n = n' /\ h = h').
  { clear - Et Et' Hh Hh' Hmi Hmi' Hse Hse' Hus Hus'. subst t.
    assert (E1 : ((n * 24 + h) * 60 + mi) * 60 + se = ((n' * 24 + h') * 60 + mi') * 60 + se')
      by lia.
    assert (E2 : (n * 24 + h) * 60 + mi = (n' * 24 + h') * 60 + mi') by lia.
    assert (E3 : n * 24 + h = n' * 24 + h') by lia.
    lia. }
  destruct Hn as [<- <-].
  assert (th = th') by (clear - Eth Eth' Hth Hth'; lia). subst th'.
  assert (wd = wd') by (clear - Ewd Ewd' Hwd Hwd'; lia). subst wd'.
  assert (yw = yw').
  { rewrite !date_day_january in Hyw, Hyw'. exact (year_unique th yw yw' Hyw Hyw'). }
  subst yw'.
  assert (y = y').
  { pose proof (date_day_in_year y m d Hm Hd).
    pose proof (date_day_in_year y' m' d' Hm' Hd').
    apply (year_unique n); lia. }
  subst y'.
  destruct (date_unique y m d m' d' Hm Hd Hm' Hd') as [<- <-]; [lia|].
  repeat split; try reflexivity. lia.
Qed.

(** ** Doubles and timestamps *)

(** The cast to a long stays within the 64 bits. *)
Lemma to_long_range (x : spec_float) : - 2 ^ 63 <= Double.to_long x <= 2 ^ 63 - 1.
Proof.
  unfold Double.to_long, Double.MIN_LONG, Double.MAX_LONG.
  destruct x as [?|[|]| |[|] m e]; lia.
Qed.

(** The cast to a long keeps the integer part, towards zero. *)
Lemma to_long_quot (s : bool) (m : positive) (e : Z) :
  Double.to_long (S754_finite s m e) =
  Z.max (- 2 ^ 63)
    (Z.min (2 ^ 63 - 1)
       (Z.quot ((if s then Z.neg m else Z.pos m) * 2 ^ Z.max 0 e) (2 ^ Z.max 0 (- e)))).
Proof.
  unfold Double.to_long, Double.MIN_LONG, Double.MAX_LONG. do 2 f_equal.
  destruct (0 <=? e) eqn:E; [apply Z.leb_le in E|apply Z.leb_gt in E].
  - rewrite (Z.max_r 0 e), (Z.max_l 0 (- e)) by lia.
    change (2 ^ 0) with 1. rewrite Z.quot_1_r, Z.shiftl_mul_pow2 by lia.
    destruct s; [|reflexivity].
    change (Z.neg m) with (- Z.pos m). now rewrite Z.mul_opp_l.
  - rewrite (Z.max_l 0 e), (Z.max_r 0 (- e)) by lia.
    change (2 ^ 0) with 1. rewrite Z.mul_1_r, Z.shiftr_div_pow2 by lia.
    assert (Hp : 0 < 2 ^ (- e)) by (apply Z.pow_pos_nonneg; lia).
    destruct s.
    + change (Z.neg m) with (- Z.pos m).
      rewrite Z.quot_opp_l by lia. now rewrite Z.quot_div_nonneg by lia.
    + now rewrite Z.quot_div_nonneg by lia.
Qed.

Lemma sql_to_timestamp_range (x : option spec_float) :
  sql_to_timestamp x = VNull \/
  exists t, sql_to_timestamp x = VTimestamp t /\ - 2 ^ 63 <= t <= 2 ^ 63 - 1.
Proof.
  unfold sql_to_timestamp. destruct x as [d|]; [|now left].
  destruct (Double.is_finite d); [|now left].
  right. eexists. split; [reflexivity|apply to_long_range].
Qed.

(** The start_time of an integer ts, on the operations of binary64. *)
Lemma start_time_of_int (ts : Z) :
  start_time_of ts (sql_to_timestamp (sql_div_1000 (VInt ts))).
Proof.
  unfold start_time_of, sql_div_1000, sql_to_double, sql_to_timestamp,
    Double.div, Double.mul, Double.of_Z, Double.prec, Double.emax,
    Calendar.MICROS_PER_SECOND.
  cbv zeta.
  generalize (SFdiv 53 1024 (binary_normalize 53 1024 ts 0 false)
                (binary_normalize 53 1024 1000 0 false)).
  intros q.
  generalize (to_long_quot).
  generalize (SFmul 53 1024 q (binary_normalize 53 1024 1000000 0 false)).
  intros p Hp.
  destruct q as [sq|sq| |sq mq eq]; cbn [Double.is_finite]; try reflexivity;
    destruct p as [?|[|]| |s m e]; try reflexivity; f_equal; apply Hp.
Qed.

(** A Time row is seven NULLs, or a timestamp with its calendar fields. *)
Lemma time_row_fields (ts : Value) :
  time_row ts = null_time_row \/
  exists t h d w m y wd,
    time_row ts = [VTimestamp t; VInt h; VInt d; VInt w; VInt m; VInt y; VInt wd] /\
    - 2 ^ 63 <= t <= 2 ^ 63 - 1 /\ time_fields t h d w m y wd.
Proof.
  unfold time_row.
  destruct (sql_to_timestamp_range (sql_div_1000 ts)) as [->|(t & -> & Ht)];
    [now left|right].
  exists t, (Calendar.hour_of t), (Calendar.dayofmonth_of t), (Calendar.weekofyear_of t),
    (Calendar.month_of t), (Calendar.year_of t), (Calendar.dayofweek_of t).
  split; [reflexivity|]. split; [exact Ht|apply time_fields_of].
Qed.


(** ** Name resolution *)

Section Resolution.

Context {A B : Type}.

Lemma index_where_map (p : B -> bool) (g : A -> B) (l : list A) :
  index_where p (map g l) = index_where (fun x => p (g x)) l.
Proof.
  induction l as [|x l IH]; simpl; [reflexivity|].
  destruct (p (g x)); [reflexivity|]. now rewrite IH.
Qed.

Lemma index_where_ext (p q : A -> bool) (l : list A) :
  (forall x, p x = q x) -> index_where p l = index_where q l.
Proof.
  intros E. induction l as [|x l IH]; simpl; [reflexivity|].
  rewrite E, IH. reflexivity.
Qed.

Lemma index_where_none (p : A -> bool) (l : list A) :
  (forall x, In x l -> p x = false) -> index_where p l = None.
Proof.
  induction l as [|x l IH]; simpl; intros H; [reflexivity|].
  rewrite (H x) by now left. rewrite IH; [reflexivity|].
  intros y Hy. apply H. now right.
Qed.

Lemma index_where_app (p : A -> bool) (l1 l2 : list A) :
  index_where p (l1 ++ l2)%list =
  match index_where p l1 with
  | Some i => Some i
  | None => option_map (Nat.add (length l1)) (index_where p l2)
  end.
Proof.
  induction l1 as [|x l1 IH]; simpl.
  - destruct (index_where p l2); reflexivity.
  - destruct (p x); [reflexivity|]. rewrite IH.
    destruct (index_where p l1); simpl; [reflexivity|].
    destruct (index_where p l2); reflexivity.
Qed.

End Resolution.

Lemma index_where_In (c : string) (sch : list string) :
  In c sch -> exists i, index_where (fun x => String.eqb x c) sch = Some i.
Proof.
  induction sch as [|x sch IH]; simpl; [tauto|].
  intros [->|H].
  - rewrite String.eqb_refl. eauto.
  - destruct (String.eqb x c); [eauto|].
    destruct (IH H) as [i ->]. simpl. eauto.
Qed.

Lemma cell_encode (sch : list string) (c : string) (i : nat) (o : JsonObject) :
  index_where (fun x => String.eqb x c) sch = Some i ->
  cell i (encode sch o) = field o c.
Proof.
  revert i. induction sch as [|x sch IH]; simpl; intros i H; [discriminate|].
  destruct (String.eqb x c) eqn:E.
  - injection H as <-. apply String.eqb_eq in E. now subst.
  - destruct (index_where _ sch) as [j|]; [|discriminate].
    injection H as <-. apply (IH j). reflexivity.
Qed.

Lemma length_encode (sch : list string) (o : JsonObject) :
  length (encode sch o) = length sch.
Proof. apply length_map. Qed.

Lemma cell_app_l (i : nat) (a b : Row) :
  (i < length a)%nat -> cell i (a ++ b)%list = cell i a.
Proof. intros H. unfold cell. now rewrite app_nth1. Qed.

Lemma cell_app_r (i : nat) (a b : Row) :
  cell (length a + i) (a ++ b)%list = cell i b.
Proof.
  unfold cell. rewrite app_nth2 by lia. f_equal. lia.
Qed.

Lemma index_where_lt {A} (p : A -> bool) (l : list A) (i : nat) :
  index_where p l = Some i -> (i < length l)%nat.
Proof.
  revert i. induction l as [|x l IH]; simpl; intros i H; [discriminate|].
  destruct (p x).
  - injection H as <-. lia.
  - destruct (index_where p l) as [j|]; [|discriminate].
    injection H as <-. specialize (IH j eq_refl). lia.
Qed.

(** ** Analysis of expressions over encoded tuples

    The rows of a relation are the images [enc t] of source tuples [t]
    (the records of a corpus, or pairs of records for a join).  An
    expression [compiles] to [g] when its analysis succeeds and the
    compiled function reads [g i t] off the row [enc t]. *)

Lemma map_from_map {A B C} (f : nat -> B -> C) (g : A -> B) (l : list A) (n : nat) :
  map_from n f (map g l) = map_from n (fun i x => f i (g x)) l.
Proof.
  revert n. induction l as [|x l IH]; simpl; intros n; [reflexivity|].
  now rewrite IH.
Qed.

Lemma map_from_ext {A B} (f g : nat -> A -> B) (l : list A) (n : nat) :
  (forall i x, f i x = g i x) -> map_from n f l = map_from n g l.
Proof.
  intros E. revert n. induction l as [|x l IH]; simpl; intros n; [reflexivity|].
  now rewrite E, IH.
Qed.

Lemma map_from_const {A B} (h : A -> B) (l : list A) (n : nat) :
  map_from n (fun _ x => h x) l = map h l.
Proof.
  revert n. induction l as [|x l IH]; simpl; intros n; [reflexivity|].
  now rewrite IH.
Qed.

Section Analysis.

Context {T : Type} (sc : Scope) (enc : T -> Row).

Lemma compiles_apply1 {A B} (h : A -> B) (e : Scope -> Result (nat -> Row -> A))
      (g : nat -> T -> A) :
  compiles sc enc e g -> compiles sc enc (apply1 h e) (fun i t => h (g i t)).
Proof.
  intros (f & Hf & Hg). unfold compiles, apply1. rewrite Hf. simpl.
  eexists. split; [reflexivity|]. intros i t. simpl. now rewrite Hg.
Qed.

Lemma decides_is_not_null (e : Expr) (g : nat -> T -> Value) :
  compiles sc enc e g -> decides sc enc (is_not_null e) (fun t => negb (is_null (g O t))).
Proof.
  intros (f & Hf & Hg). unfold decides, is_not_null. rewrite Hf. simpl.
  eexists. split; [reflexivity|]. intros t. simpl. now rewrite Hg.
Qed.

Lemma decides_eq (a b : Expr) (ga gb : nat -> T -> Value) :
  compiles sc enc a ga -> compiles sc enc b gb ->
  decides sc enc (eq_ a b) (fun t => sql_eq (ga O t) (gb O t)).
Proof.
  intros (f & Hf & Hg) (f' & Hf' & Hg'). unfold decides, eq_.
  rewrite Hf, Hf'. simpl.
  eexists. split; [reflexivity|]. intros t. simpl. now rewrite Hg, Hg'.
Qed.

Lemma decides_and (a b : Cond) (pa pb : T -> bool) :
  decides sc enc a pa -> decides sc enc b pb -> decides sc enc (and_ a b) (fun t => pa t && pb t).
Proof.
  intros (f & Hf & Hg) (f' & Hf' & Hg'). unfold decides, and_.
  rewrite Hf, Hf'. simpl.
  eexists. split; [reflexivity|]. intros t. simpl. now rewrite Hg, Hg'.
Qed.

Lemma sequence_compiles (items : list (Expr * string)) (gs : list (nat -> T -> Value)) :
  Forall2 (fun it g => compiles sc enc (fst it) g) items gs ->
  exists fs, sequence (map (fun it => fst it sc) items) = Ok fs /\
             Forall2 (fun (f : Compiled) g => forall i t, f i (enc t) = g i t) fs gs.
Proof.
  intros H. induction H as [|it g items gs Hc _ IH]; simpl.
  - exists []. split; [reflexivity|constructor].
  - destruct Hc as (f & Hf & Hg). destruct IH as (fs & Hfs & IH).
    exists (f :: fs). split; [|now constructor].
    unfold Expr, Compiled in *. rewrite Hf. simpl. rewrite Hfs. reflexivity.
Qed.

Lemma where_decides (c : Cond) (p : T -> bool) (ts : list T) :
  decides sc enc c p ->
  where_ {| scope := sc; tuples := map enc ts |} c =
  Ok {| scope := sc; tuples := map enc (List.filter p ts) |}.
Proof.
  intros (f & Hf & Hp). unfold where_. simpl. rewrite Hf. simpl.
  do 2 f_equal. rewrite filter_map_swap. f_equal.
  apply filter_ext. intros t. apply Hp.
Qed.

Lemma select_compiles (d : bool) (items : list (Expr * string))
      (gs : list (nat -> T -> Value)) (ts : list T) :
  Forall2 (fun it g => compiles sc enc (fst it) g) items gs ->
  select d items {| scope := sc; tuples := map enc ts |} =
  Ok {| schema := map snd items;
        rows := let out := map_from O (fun i t => map (fun g => g i t) gs) ts in
                if d then remove_dups out else out |}.
Proof.
  intros H. destruct (sequence_compiles _ _ H) as (fs & Hfs & Hg).
  unfold select. simpl. rewrite Hfs. simpl.
  assert (E : map_from O (fun i t => map (fun f : Compiled => f i t) fs) (map enc ts) =
              map_from O (fun i t => map (fun g => g i t) gs) ts).
  { rewrite map_from_map. apply map_from_ext. intros i t.
    clear Hfs H. induction Hg as [|f g fs gs Hfg _ IH]; simpl; [reflexivity|].
    now rewrite Hfg, IH. }
  rewrite E. reflexivity.
Qed.

End Analysis.

(** Columns of a single relation read from JSON. *)
Lemma compiles_col (a : string) (sch : list string) (c : string) :
  In c sch ->
  compiles (map (fun c => (a, c)) sch) (encode sch) (col c) (fun _ o => field o c).
Proof.
  intros H. destruct (index_where_In c sch H) as [i Hi].
  unfold compiles, col. rewrite index_where_map. simpl. rewrite Hi.
  eexists. split; [reflexivity|]. intros ? o. simpl. now apply cell_encode.
Qed.

Lemma compiles_qcol (a : string) (sch : list string) (c : string) :
  In c sch ->
  compiles (map (fun c => (a, c)) sch) (encode sch) (qcol a c) (fun _ o => field o c).
Proof.
  intros H. destruct (index_where_In c sch H) as [i Hi].
  unfold compiles, qcol. rewrite index_where_map. simpl.
  rewrite (index_where_ext _ (fun x => String.eqb x c))
    by (intros x; now rewrite String.eqb_refl).
  rewrite Hi.
  eexists. split; [reflexivity|]. intros ? o. simpl. now apply cell_encode.
Qed.

(** A qualifier that no relation of the FROM clause carries resolves to
    nothing, whatever the columns are. *)
Lemma qcol_unknown_qualifier (q c : string) (sc : Scope) :
  (forall qc, In qc sc -> fst qc <> q) ->
  qcol q c sc = Err (CannotResolve (Some q) c).
Proof.
  intros H. unfold qcol. rewrite index_where_none; [reflexivity|].
  intros qc Hqc. apply andb_false_iff. left.
  apply String.eqb_neq. now apply H.
Qed.

(** Columns of the two sides of a join. *)
Section JoinColumns.

Context (a b : string) (s1 s2 : list string) (Hab : a <> b).

Let sc : Scope := (map (fun c => (a, c)) s1 ++ map (fun c => (b, c)) s2)%list.
Let enc (t : JsonObject * JsonObject) : Row :=
  (encode s1 (fst t) ++ encode s2 (snd t))%list.

Lemma compiles_qcol_left (c : string) :
  In c s1 -> compiles sc enc (qcol a c) (fun _ t => field (fst t) c).
Proof.
  intros H. destruct (index_where_In c s1 H) as [i Hi].
  unfold compiles, qcol, sc. rewrite index_where_app, index_where_map. simpl.
  rewrite (index_where_ext _ (fun x => String.eqb x c))
    by (intros x; now rewrite String.eqb_refl).
  rewrite Hi.
  eexists. split; [reflexivity|]. intros ? t. simpl. unfold enc.
  rewrite cell_app_l.
  - now apply cell_encode.
  - rewrite length_encode. eapply index_where_lt. exact Hi.
Qed.

Lemma compiles_qcol_right (c : string) :
  In c s2 -> compiles sc enc (qcol b c) (fun _ t => field (snd t) c).
Proof.
  intros H. destruct (index_where_In c s2 H) as [i Hi].
  unfold compiles, qcol, sc. rewrite index_where_app, !index_where_map. simpl.
  rewrite (index_where_none _ s1).
  2:{ intros x _. apply andb_false_iff. left. now apply String.eqb_neq. }
  rewrite (index_where_ext _ (fun x => String.eqb x c))
    by (intros x; now rewrite String.eqb_refl).
  rewrite Hi. simpl.
  eexists. split; [reflexivity|]. intros ? t. simpl. unfold enc.
  rewrite length_map, <- (length_encode s1 (fst t)), cell_app_r.
  now apply cell_encode.
Qed.

End JoinColumns.

Lemma flat_map_pairs {T1 T2} (enc1 : T1 -> Row) (enc2 : T2 -> Row)
      (ts1 : list T1) (ts2 : list T2) :
  flat_map (fun a => map (fun b => (a ++ b)%list) (map enc2 ts2)) (map enc1 ts1) =
  map (fun t => (enc1 (fst t) ++ enc2 (snd t))%list) (list_prod ts1 ts2).
Proof.
  induction ts1 as [|x ts1 IH]; simpl; [reflexivity|].
  rewrite IH, map_app, !map_map. reflexivity.
Qed.

Lemma join_decides {T1 T2} (sc1 sc2 : Scope) (enc1 : T1 -> Row) (enc2 : T2 -> Row)
      (c : Cond) (p : T1 * T2 -> bool) (ts1 : list T1) (ts2 : list T2) :
  decides (sc1 ++ sc2)%list (fun t => (enc1 (fst t) ++ enc2 (snd t))%list) c p ->
  join {| scope := sc1; tuples := map enc1 ts1 |}
       {| scope := sc2; tuples := map enc2 ts2 |} c =
  Ok {| scope := (sc1 ++ sc2)%list;
        tuples := map (fun t => (enc1 (fst t) ++ enc2 (snd t))%list)
                      (List.filter p (list_prod ts1 ts2)) |}.
Proof.
  intros (f & Hf & Hp). unfold join. simpl. rewrite Hf. simpl.
  do 2 f_equal. rewrite flat_map_pairs, filter_map_swap. f_equal.
  apply filter_ext. intros t. apply Hp.
Qed.

(** ** What each statement computes

    The views hold frames read from JSON: a schema [sch] and the rows
    [encode sch o] of the records [o].  Each statement succeeds when the
    columns it names are in the schema, and its result is spelled out on
    the records. *)

Lemma json_to_df_frame (corpus : list JsonObject) :
  json_to_df corpus = frame (infer_schema corpus) corpus.
Proof. reflexivity. Qed.

Ltac columns :=
  match goal with
  | H : incl _ ?sch |- In _ ?sch => apply H; simpl; tauto
  end.

Lemma songs_query_frame (vs : Views) (sch : list string) (objs : list JsonObject) :
  vs !! "song_data_table" = Some (frame sch objs) ->
  incl songs_columns sch ->
  songs_query vs =
  Ok {| schema := songs_columns;
        rows := map (project songs_columns) (List.filter (not_null "song_id") objs) |}.
Proof.
  intros Hv Hc. unfold songs_query, from_view. rewrite Hv. simpl.
  rewrite (where_decides _ _ _ (not_null "song_id")).
  2:{ apply decides_is_not_null with (g := fun _ o => field o "song_id").
      apply compiles_col. columns. }
  simpl.
  rewrite (select_compiles _ _ _ _
             (map (fun c _ o => field o c) songs_columns)).
  2:{ repeat constructor; apply compiles_col; columns. }
  simpl. rewrite map_from_const. reflexivity.
Qed.

Lemma artists_query_frame (vs : Views) (sch : list string) (objs : list JsonObject) :
  vs !! "song_data_table" = Some (frame sch objs) ->
  incl artists_columns sch ->
  artists_query vs =
  Ok {| schema := artists_columns;
        rows := remove_dups
                  (map (project artists_columns) (List.filter (not_null "artist_id") objs)) |}.
Proof.
  intros Hv Hc. unfold artists_query, from_view. rewrite Hv. simpl.
  rewrite (where_decides _ _ _ (not_null "artist_id")).
  2:{ apply decides_is_not_null with (g := fun _ o => field o "artist_id").
      apply compiles_col. columns. }
  simpl.
  rewrite (select_compiles _ _ _ _
             (map (fun c _ o => field o c) artists_columns)).
  2:{ repeat constructor; apply compiles_col; columns. }
  simpl. rewrite map_from_const. reflexivity.
Qed.

Lemma users_query_frame (vs : Views) (sch : list string) (objs : list JsonObject) :
  vs !! "log_data_table" = Some (frame sch objs) ->
  incl users_columns sch ->
  users_query vs =
  Ok {| schema := users_names;
        rows := remove_dups
                  (map (project users_columns) (List.filter (not_null "userId") objs)) |}.
Proof.
  intros Hv Hc. unfold users_query, from_view. rewrite Hv. simpl.
  rewrite (where_decides _ _ _ (not_null "userId")).
  2:{ apply decides_is_not_null with (g := fun _ o => field o "userId").
      apply compiles_col. columns. }
  simpl.
  rewrite (select_compiles _ _ _ _
             (map (fun c _ o => field o c) users_columns)).
  2:{ repeat constructor; apply compiles_col; columns. }
  simpl. rewrite map_from_const. reflexivity.
Qed.

Lemma time_query_frame (vs : Views) (sch : list string) (objs : list JsonObject) :
  vs !! "log_data_table" = Some (frame sch objs) ->
  In "ts" sch ->
  time_query vs =
  Ok {| schema := time_names;
        rows := map (fun o => time_row (field o "ts"))
                    (List.filter (not_null "ts") objs) |}.
Proof.
  intros Hv Hc. unfold time_query, from_view. rewrite Hv. simpl.
  rewrite (where_decides _ _ _ (not_null "ts")).
  2:{ apply decides_is_not_null with (g := fun _ o => field o "ts").
      now apply compiles_qcol. }
  simpl.
  rewrite (select_compiles _ _ _ _
             [fun _ o => sql_to_timestamp (sql_div_1000 (field o "ts"))]).
  2:{ repeat constructor. simpl. unfold to_timestamp, div_1000.
      apply (compiles_apply1 _ _ sql_to_timestamp _
               (fun _ o => sql_div_1000 (field o "ts"))).
      apply (compiles_apply1 _ _ sql_div_1000 _ (fun _ o => field o "ts")).
      now apply compiles_qcol. }
  simpl. rewrite map_from_const.
  unfold select, from_subquery. simpl.
  rewrite map_from_map, map_from_const. reflexivity.
Qed.

Lemma songplays_from_frame (vs : Views) (sl ss : list string)
      (logs songs : list JsonObject) :
  vs !! "log_data_table" = Some (frame sl logs) ->
  vs !! "song_data_table" = Some (frame ss songs) ->
  incl ["artist"; "song"] sl ->
  incl ["artist_name"; "title"] ss ->
  songplays_from vs =
  Ok {| scope := joined_scope sl ss;
        tuples := map (joined_row sl ss) (List.filter matches (list_prod logs songs)) |}.
Proof.
  intros Hl Hs Hcl Hcs. unfold songplays_from, from_view. rewrite Hl, Hs. simpl.
  apply (join_decides _ _ (encode sl) (encode ss)).
  apply decides_and.
  - apply (decides_eq _ _ _ _ (fun _ t => field (fst t) "artist")
                              (fun _ t => field (snd t) "artist_name")).
    + apply compiles_qcol_left. columns.
    + apply compiles_qcol_right; [discriminate|columns].
  - apply (decides_eq _ _ _ _ (fun _ t => field (fst t) "song")
                              (fun _ t => field (snd t) "title")).
    + apply compiles_qcol_left. columns.
    + apply compiles_qcol_right; [discriminate|columns].
Qed.

(** The scope of the join has the two aliases of its FROM clause and no
    other. *)
Lemma songplays_from_scope (vs : Views) (j : Relation) :
  songplays_from vs = Ok j ->
  forall qc, In qc (scope j) -> fst qc = "log" \/ fst qc = "song".
Proof.
  unfold songplays_from, from_view, join.
  destruct (vs !! "log_data_table") as [dl|]; simpl; [|discriminate].
  destruct (vs !! "song_data_table") as [ds|]; simpl; [|discriminate].
  match goal with |- context [rbind ?c _] => destruct c as [p|e] end;
    simpl; [|discriminate].
  intros [= <-] qc. simpl. rewrite in_app_iff, !in_map_iff.
  intros [(c & <- & _)|(c & <- & _)]; simpl; auto.
Qed.

(** The select list of the songplays statement names [logT.ts]; the FROM
    clause has no relation [logT], so the analysis of the statement stops
    there whenever it gets that far. *)
Lemma songplays_select_unresolved (j : Relation) :
  (forall qc, In qc (scope j) -> fst qc = "log" \/ fst qc = "song") ->
  select false songplays_select j = Err (CannotResolve (Some "logT") "ts").
Proof.
  intros H. unfold select, songplays_select. simpl.
  unfold to_timestamp at 1, div_1000 at 1, apply1.
  rewrite qcol_unknown_qualifier; [reflexivity|].
  intros qc Hqc. destruct (H qc Hqc) as [-> | ->]; discriminate.
Qed.

Lemma songplays_query_unresolved (vs : Views) (j : Relation) :
  songplays_from vs = Ok j ->
  songplays_query vs = Err (CannotResolve (Some "logT") "ts").
Proof.
  intros H. unfold songplays_query. rewrite H. simpl.
  apply songplays_select_unresolved. now apply songplays_from_scope with vs.
Qed.

Lemma songplays_query_fails (vs : Views) :
  exists e, songplays_query vs = Err e.
Proof.
  destruct (songplays_from vs) as [j|e] eqn:E.
  - eexists. now apply songplays_query_unresolved with j.
  - exists e. unfold songplays_query. now rewrite E.
Qed.

(** ** Paths *)

Lemma path_neq (out a b : string) : a <> b -> out +:+ a <> out +:+ b.
Proof. intros H E. apply H. exact (String.app_inj out a b E). Qed.

Ltac paths := apply path_neq; discriminate.

Lemma filter_eq_frame (sch : list string) (objs : list JsonObject) (c : string) (v : Value) :
  In c sch ->
  filter_eq (frame sch objs) c v =
  Ok (frame sch (List.filter (fun o => sql_eq (field o c) v) objs)).
Proof.
  intros H. destruct (index_where_In c sch H) as [i Hi].
  unfold filter_eq, frame. simpl. rewrite Hi. do 2 f_equal.
  rewrite filter_map_swap. f_equal. apply filter_ext.
  intros o. now rewrite (cell_encode sch c i o Hi).
Qed.

(** ** What each stage writes *)

Lemma process_song_data_songs (inp out : string) (s : Session) (corpus : list JsonObject) :
  json_files s !! song_glob inp = Some corpus ->
  incl songs_columns (infer_schema corpus) ->
  let s' := snd (process_song_data inp out s) in
  views s' = <["song_data_table" := json_to_df corpus]> (views s) /\
  json_files s' = json_files s /\
  parquet_files s' !! (out +:+ "songs_table/") = Some (songs_of corpus).
Proof.
  intros Hj Hc. unfold process_song_data, bind, read_json, createOrReplaceTempView,
    sql, write_parquet. fold (song_glob inp). rewrite Hj. simpl.
  rewrite (songs_query_frame _ (infer_schema corpus) corpus);
    [|apply lookup_insert_eq|exact Hc].
  simpl. destruct (artists_query _); simpl.
  - repeat split. rewrite lookup_insert_ne by paths. apply lookup_insert_eq.
  - repeat split. apply lookup_insert_eq.
Qed.

Lemma process_song_data_ok (inp out : string) (s : Session) (corpus : list JsonObject) :
  json_files s !! song_glob inp = Some corpus ->
  incl songs_columns (infer_schema corpus) ->
  incl artists_columns (infer_schema corpus) ->
  process_song_data inp out s =
  (Ok tt,
   {| views := <["song_data_table" := json_to_df corpus]> (views s);
      json_files := json_files s;
      parquet_files :=
        <[out +:+ "artists_table/" := artists_of corpus]>
          (<[out +:+ "songs_table/" := songs_of corpus]> (parquet_files s)) |}).
Proof.
  intros Hj Hc Ha. unfold process_song_data, bind, read_json, createOrReplaceTempView,
    sql, write_parquet. fold (song_glob inp). rewrite Hj. simpl.
  rewrite (songs_query_frame _ (infer_schema corpus) corpus);
    [|apply lookup_insert_eq|exact Hc].
  simpl.
  rewrite (artists_query_frame _ (infer_schema corpus) corpus);
    [|apply lookup_insert_eq|exact Ha].
  reflexivity.
Qed.

(** The event-log stage up to the songplays statement: the view of the
    played records is registered and the users and time tables are
    written; the stage then ends in an error, since the songplays
    statement never passes analysis. *)
Lemma process_log_data_run (inp out : string) (s : Session) (logs : list JsonObject) :
  json_files s !! log_glob inp = Some logs ->
  incl log_columns (infer_schema logs) ->
  exists e,
    process_log_data inp out s =
    (Err e,
     {| views := <["log_data_table" := frame (infer_schema logs) (played logs)]> (views s);
        json_files := json_files s;
        parquet_files :=
          <[out +:+ "time_table/" := time_of logs]>
            (<[out +:+ "users_table/" := users_of logs]> (parquet_files s)) |}) /\
    (forall song_df,
       parquet_files s !! (out +:+ "songs_table/") = Some song_df ->
       rows song_df <> [] ->
       songplays_query
         (<["log_data_table" := frame (infer_schema logs) (played logs)]> (views s))
       = Err e) /\
    (forall song_df,
       parquet_files s !! (out +:+ "songs_table/") = Some song_df ->
       rows song_df = [] ->
       e = UnableToInferSchema (out +:+ "songs_table/")).
Proof.
  intros Hj Hc. unfold process_log_data, bind, read_json, lift, createOrReplaceTempView,
    sql, write_parquet, read_parquet. fold (log_glob inp). rewrite Hj. simpl.
  rewrite json_to_df_frame, filter_eq_frame by columns. fold (played logs). simpl.
  rewrite (users_query_frame _ (infer_schema logs) (played logs));
    [|apply lookup_insert_eq|intros c Hin; apply Hc; simpl in *; tauto].
  simpl.
  rewrite (time_query_frame _ (infer_schema logs) (played logs));
    [|apply lookup_insert_eq|columns].
  simpl. rewrite !lookup_insert_ne by paths.
  destruct (parquet_files s !! (out +:+ "songs_table/")) as [song_df|] eqn:Hp; simpl.
  - destruct (rows song_df) as [|r rs] eqn:Hr; simpl.
    + eexists. split; [reflexivity|]. split.
      * intros df [= <-] Hne. congruence.
      * reflexivity.
    + destruct (songplays_query_fails
                  (<["log_data_table" := frame (infer_schema logs) (played logs)]> (views s)))
        as [e He].
      rewrite He. simpl. exists e. split; [reflexivity|]. split.
      * intros df _ _. reflexivity.
      * intros df [= <-] Hnil. congruence.
  - eexists. split; [reflexivity|]. split; intros df Hdf; discriminate.
Qed.

(** The users table is written before the time statement runs: it needs
    the columns of the page filter and of the users statement only. *)
Lemma process_log_data_users (inp out : string) (s : Session) (logs : list JsonObject) :
  json_files s !! log_glob inp = Some logs ->
  incl ("page" :: users_columns) (infer_schema logs) ->
  parquet_files (snd (process_log_data inp out s)) !! (out +:+ "users_table/") =
  Some (users_of logs).
Proof.
  intros Hj Hc. unfold process_log_data, bind, read_json, lift, createOrReplaceTempView,
    sql, write_parquet, read_parquet. fold (log_glob inp). rewrite Hj. simpl.
  rewrite json_to_df_frame, filter_eq_frame by columns. fold (played logs). simpl.
  rewrite (users_query_frame _ (infer_schema logs) (played logs));
    [|apply lookup_insert_eq|intros c Hin; apply Hc; simpl in *; tauto].
  simpl. destruct (time_query _); simpl; [|apply lookup_insert_eq].
  rewrite !lookup_insert_ne by paths.
  destruct (parquet_files s !! (out +:+ "songs_table/")) as [song_df|]; simpl.
  - destruct (rows song_df); simpl;
      [rewrite lookup_insert_ne by paths; apply lookup_insert_eq|].
    destruct (songplays_query _); simpl;
      rewrite ?lookup_insert_ne by paths; apply lookup_insert_eq.
  - rewrite lookup_insert_ne by paths. apply lookup_insert_eq.
Qed.

(** A list of columns is in a schema when each of them is found there. *)
Lemma incl_columns (cols sch : list string) :
  forallb (fun c => existsb (String.eqb c) sch) cols = true -> incl cols sch.
Proof.
  rewrite forallb_forall. intros H c Hc.
  specialize (H c Hc). apply existsb_exists in H as (x & Hx & E).
  apply String.eqb_eq in E. now subst.
Qed.

Lemma In_remove_dups {A} `{EqDecision A} (l : list A) (x : A) :
  In x (remove_dups l) <-> In x l.
Proof. rewrite <- !list_elem_of_In. apply elem_of_remove_dups. Qed.

Lemma project_head_not_null (c : string) (cols : list string) (o : JsonObject) :
  not_null c o = true -> cell 0 (project (c :: cols) o) <> VNull.
Proof.
  unfold not_null, project, cell. simpl. destruct (field o c); simpl; congruence.
Qed.

(** ** The errors of the statements

    Once its views are registered, a statement fails only on a name of a
    column or of a qualifier. *)

Lemma col_fails_unresolved (c : string) : fails_unresolved (col c).
Proof.
  intros sc err. unfold col. destruct (index_where _ sc); [discriminate|].
  now intros [= <-].
Qed.

Lemma qcol_fails_unresolved (q c : string) : fails_unresolved (qcol q c).
Proof.
  intros sc err. unfold qcol. destruct (index_where _ sc); [discriminate|].
  now intros [= <-].
Qed.

Lemma apply1_fails_unresolved {A B} (f : A -> B) (e : Scope -> Result (nat -> Row -> A)) :
  fails_unresolved e -> fails_unresolved (apply1 f e).
Proof.
  intros H sc err. unfold apply1. destruct (e sc) as [g|x] eqn:E; simpl; [discriminate|].
  intros [= <-]. now apply (H sc).
Qed.

Lemma monotonically_increasing_id_fails_unresolved :
  fails_unresolved monotonically_increasing_id.
Proof. intros sc err. discriminate. Qed.

Lemma is_not_null_fails_unresolved (e : Expr) :
  fails_unresolved e -> fails_unresolved (is_not_null e).
Proof.
  intros H sc err. unfold is_not_null. destruct (e sc) as [g|x] eqn:E; simpl; [discriminate|].
  intros [= <-]. now apply (H sc).
Qed.

Lemma eq_fails_unresolved (a b : Expr) :
  fails_unresolved a -> fails_unresolved b -> fails_unresolved (eq_ a b).
Proof.
  intros Ha Hb sc err. unfold eq_.
  destruct (a sc) as [f|x] eqn:Ea; simpl; [|intros [= <-]; now apply (Ha sc)].
  destruct (b sc) as [g|x] eqn:Eb; simpl; [discriminate|].
  intros [= <-]. now apply (Hb sc).
Qed.

Lemma and_fails_unresolved (a b : Cond) :
  fails_unresolved a -> fails_unresolved b -> fails_unresolved (and_ a b).
Proof.
  intros Ha Hb sc err. unfold and_.
  destruct (a sc) as [f|x] eqn:Ea; simpl; [|intros [= <-]; now apply (Ha sc)].
  destruct (b sc) as [g|x] eqn:Eb; simpl; [discriminate|].
  intros [= <-]. now apply (Hb sc).
Qed.

Lemma sequence_error {A} (rs : list (Result A)) (err : Error) :
  sequence rs = Err err -> In (Err err) rs.
Proof.
  induction rs as [|r rs IH]; simpl; [discriminate|].
  destruct r as [a|x]; simpl; [|intros [= <-]; now left].
  destruct (sequence rs) as [l|x]; simpl; [discriminate|].
  intros [= <-]. right. now apply IH.
Qed.

Lemma select_error (d : bool) (items : list (Expr * string)) (r : Relation) (err : Error) :
  Forall (fun it => fails_unresolved (fst it)) items ->
  select d items r = Err err -> unresolved err.
Proof.
  intros Hall. unfold select.
  destruct (sequence _) as [fs|x] eqn:E; simpl; [discriminate|].
  intros [= <-]. apply sequence_error, in_map_iff in E as (it & Hit & Hin).
  rewrite List.Forall_forall in Hall. exact (Hall it Hin _ _ Hit).
Qed.

Lemma where_error (r : Relation) (c : Cond) (err : Error) :
  fails_unresolved c -> where_ r c = Err err -> unresolved err.
Proof.
  intros H. unfold where_. destruct (c (scope r)) as [p|x] eqn:E; simpl; [discriminate|].
  intros [= <-]. now apply (H (scope r)).
Qed.

Lemma join_error (l r : Relation) (c : Cond) (err : Error) :
  fails_unresolved c -> join l r c = Err err -> unresolved err.
Proof.
  intros H. unfold join. destruct (c _) as [p|x] eqn:E; simpl; [discriminate|].
  intros [= <-]. now apply (H _ _ E).
Qed.

Ltac fails_unresolved :=
  repeat first
    [ apply col_fails_unresolved
    | apply qcol_fails_unresolved
    | apply monotonically_increasing_id_fails_unresolved
    | apply apply1_fails_unresolved
    | apply is_not_null_fails_unresolved
    | apply eq_fails_unresolved
    | apply and_fails_unresolved ].

Ltac items_fail_unresolved :=
  repeat (constructor; [simpl; fails_unresolved|]); constructor.

Lemma songs_query_error (vs : Views) (err : Error) :
  is_Some (vs !! "song_data_table") -> songs_query vs = Err err -> unresolved err.
Proof.
  intros [df Hv]. unfold songs_query, from_view. rewrite Hv. simpl.
  destruct (where_ _ _) as [t|x] eqn:E; simpl.
  - apply select_error. items_fail_unresolved.
  - intros [= <-]. eapply where_error; [|exact E]. fails_unresolved.
Qed.

Lemma artists_query_error (vs : Views) (err : Error) :
  is_Some (vs !! "song_data_table") -> artists_query vs = Err err -> unresolved err.
Proof.
  intros [df Hv]. unfold artists_query, from_view. rewrite Hv. simpl.
  destruct (where_ _ _) as [t|x] eqn:E; simpl.
  - apply select_error. items_fail_unresolved.
  - intros [= <-]. eapply where_error; [|exact E]. fails_unresolved.
Qed.

Lemma users_query_error (vs : Views) (err : Error) :
  is_Some (vs !! "log_data_table") -> users_query vs = Err err -> unresolved err.
Proof.
  intros [df Hv]. unfold users_query, from_view. rewrite Hv. simpl.
  destruct (where_ _ _) as [t|x] eqn:E; simpl.
  - apply select_error. items_fail_unresolved.
  - intros [= <-]. eapply where_error; [|exact E]. fails_unresolved.
Qed.

Lemma time_query_error (vs : Views) (err : Error) :
  is_Some (vs !! "log_data_table") -> time_query vs = Err err -> unresolved err.
Proof.
  intros [df Hv]. unfold time_query, from_view. rewrite Hv. simpl.
  destruct (where_ _ _) as [t|x] eqn:E; simpl.
  2:{ intros [= <-]. eapply where_error; [|exact E]. fails_unresolved. }
  destruct (select false _ t) as [temp|x] eqn:E2; simpl.
  2:{ intros [= <-]. eapply select_error; [|exact E2]. items_fail_unresolved. }
  apply select_error. items_fail_unresolved.
Qed.

Lemma songplays_query_error (vs : Views) (err : Error) :
  is_Some (vs !! "log_data_table") -> is_Some (vs !! "song_data_table") ->
  songplays_query vs = Err err -> unresolved err.
Proof.
  intros [dl Hl] [ds Hs]. unfold songplays_query, songplays_from, from_view.
  rewrite Hl, Hs. simpl.
  destruct (join _ _ _) as [j|x] eqn:E; simpl.
  - apply select_error. unfold songplays_select. items_fail_unresolved.
  - intros [= <-]. eapply join_error; [|exact E]. fails_unresolved.
Qed.

(** * The claims *)

(** ** Songs and artists tables *)

(** C7: for every song corpus on which the song-catalog stage runs, the
    written Songs table has one row per input record with a non-null
    song_id, in order, carrying that record's song_id, title, artist_id,
    year and duration, so no Songs row has a null song_id; the written
    Artists table has no row with a null artist_id and no two equal
    rows. *)
Theorem songs_and_artists_tables
        (inp out : string) (s : Session) (corpus : list JsonObject) :
  json_files s !! song_glob inp = Some corpus ->
  incl songs_columns (infer_schema corpus) ->
  incl artists_columns (infer_schema corpus) ->
  let s' := snd (process_song_data inp out s) in
  exists songs artists,
    fst (process_song_data inp out s) = Ok tt /\
    parquet_files s' !! (out +:+ "songs_table/") = Some songs /\
    parquet_files s' !! (out +:+ "artists_table/") = Some artists /\
    schema songs = ["song_id"; "title"; "artist_id"; "year"; "duration"] /\
    schema artists = ["artist_id"; "artist_name"; "artist_location";
                      "artist_latitude"; "artist_longitude"] /\
    Forall2 (fun o r =>
               r = [field o "song_id"; field o "title"; field o "artist_id";
                    field o "year"; field o "duration"])
            (List.filter (fun o => negb (is_null (field o "song_id"))) corpus)
            (rows songs) /\
    (forall r, In r (rows songs) -> cell 0 r <> VNull) /\
    (forall r, In r (rows artists) -> cell 0 r <> VNull) /\
    NoDup (rows artists).
Proof.
  intros Hj Hs Ha s'. subst s'.
  rewrite (process_song_data_ok inp out s corpus Hj Hs Ha). simpl.
  exists (songs_of corpus), (artists_of corpus).
  split; [reflexivity|].
  split; [rewrite lookup_insert_ne by paths; apply lookup_insert_eq|].
  split; [apply lookup_insert_eq|].
  split; [reflexivity|]. split; [reflexivity|].
  split; [|split; [|split]].
  - simpl. fold (not_null "song_id").
    induction (List.filter (not_null "song_id") corpus) as [|o l IH]; simpl;
      constructor; auto.
  - simpl. intros r Hr. apply in_map_iff in Hr as (o & <- & Ho).
    apply filter_In in Ho as [_ Ho]. now apply project_head_not_null.
  - simpl. intros r Hr. apply In_remove_dups, in_map_iff in Hr as (o & <- & Ho).
    apply filter_In in Ho as [_ Ho]. now apply project_head_not_null.
  - simpl. apply NoDup_remove_dups.
Qed.

Lemma songs_and_artists_tables_witness :
  exists songs artists,
    fst (process_song_data input_data output_data catalog_session) = Ok tt /\
    parquet_files (snd (process_song_data input_data output_data catalog_session))
      !! (output_data +:+ "songs_table/") = Some songs /\
    parquet_files (snd (process_song_data input_data output_data catalog_session))
      !! (output_data +:+ "artists_table/") = Some artists /\
    schema songs = ["song_id"; "title"; "artist_id"; "year"; "duration"] /\
    schema artists = ["artist_id"; "artist_name"; "artist_location";
                      "artist_latitude"; "artist_longitude"] /\
    Forall2 (fun o r =>
               r = [field o "song_id"; field o "title"; field o "artist_id";
                    field o "year"; field o "duration"])
            (List.filter (fun o => negb (is_null (field o "song_id")))
                         [song_S1; song_unkeyed; song_S1])
            (rows songs) /\
    (forall r, In r (rows songs) -> cell 0 r <> VNull) /\
    (forall r, In r (rows artists) -> cell 0 r <> VNull) /\
    NoDup (rows artists).
Proof.
  apply (songs_and_artists_tables input_data output_data catalog_session
           [song_S1; song_unkeyed; song_S1]).
  - reflexivity.
  - apply incl_columns. reflexivity.
  - apply incl_columns. reflexivity.
Defined.

(** ** Users table *)

(** C6, as stated, fails: the users table written for a listener who
    changes level holds two different rows with the same user_id. *)
Lemma users_table_shares_user_id :
  exists users r1 r2,
    parquet_files (snd (main upgrade_session)) !! (output_data +:+ "users_table/")
    = Some users /\
    schema users = ["user_id"; "first_name"; "last_name"; "gender"; "level"] /\
    In r1 (rows users) /\ In r2 (rows users) /\
    r1 <> r2 /\ cell 0 r1 = cell 0 r2.
Proof.
  exists {| schema := users_names;
            rows := [ [VStr "7"; VNull; VNull; VNull; VStr "free"];
                      [VStr "7"; VNull; VNull; VNull; VStr "paid"] ] |},
         [VStr "7"; VNull; VNull; VNull; VStr "free"],
         [VStr "7"; VNull; VNull; VNull; VStr "paid"].
  split; [vm_compute; reflexivity|].
  split; [reflexivity|]. simpl.
  split; [tauto|]. split; [tauto|]. split; [discriminate|reflexivity].
Qed.

(** C6, amended: for every log corpus on which the users statement runs,
    the written Users table has no row with a null user_id and no two
    equal rows; its rows are the (user_id, first_name, last_name, gender,
    level) projections of the NextSong events with a non-null userId, so
    one user_id has a row for each combination of the other columns it
    occurs with. *)
Theorem users_table_distinct_rows
        (inp out : string) (s : Session) (logs : list JsonObject) :
  json_files s !! log_glob inp = Some logs ->
  incl ("page" :: users_columns) (infer_schema logs) ->
  exists users,
    parquet_files (snd (process_log_data inp out s)) !! (out +:+ "users_table/")
    = Some users /\
    schema users = ["user_id"; "first_name"; "last_name"; "gender"; "level"] /\
    (forall r, In r (rows users) -> cell 0 r <> VNull) /\
    NoDup (rows users) /\
    (forall r, In r (rows users) <->
       exists o, In o logs /\
                 sql_eq (field o "page") (VStr "NextSong") = true /\
                 field o "userId" <> VNull /\
                 r = [field o "userId"; field o "firstName"; field o "lastName";
                      field o "gender"; field o "level"]).
Proof.
  intros Hj Hc. exists (users_of logs).
  split; [now apply process_log_data_users|].
  split; [reflexivity|]. simpl.
  assert (E : forall r,
             In r (remove_dups (map (project users_columns)
                                    (List.filter (not_null "userId") (played logs)))) <->
             exists o, In o logs /\
                       sql_eq (field o "page") (VStr "NextSong") = true /\
                       field o "userId" <> VNull /\
                       r = project users_columns o).
  { intros r. rewrite In_remove_dups, in_map_iff. split.
    - intros (o & <- & Ho). apply filter_In in Ho as [Ho Hn].
      apply filter_In in Ho as [Ho Hp]. exists o. repeat split; auto.
      unfold not_null in Hn. destruct (field o "userId"); simpl in Hn; congruence.
    - intros (o & Ho & Hp & Hn & ->). exists o. split; [reflexivity|].
      apply filter_In. split; [apply filter_In; auto|].
      unfold not_null. destruct (field o "userId"); simpl; congruence. }
  split; [|split; [apply NoDup_remove_dups|exact E]].
  intros r Hr. apply E in Hr as (o & _ & _ & Hn & ->). exact Hn.
Qed.

Lemma users_table_distinct_rows_witness :
  exists users,
    parquet_files (snd (process_log_data input_data output_data upgrade_session))
      !! (output_data +:+ "users_table/") = Some users /\
    schema users = ["user_id"; "first_name"; "last_name"; "gender"; "level"] /\
    (forall r, In r (rows users) -> cell 0 r <> VNull) /\
    NoDup (rows users) /\
    (forall r, In r (rows users) <->
       exists o, In o [ log_event "7" "free" 1541106106796;
                        log_event "7" "paid" 1541106132796;
                        log_event "7" "paid" 1541106352796 ] /\
                 sql_eq (field o "page") (VStr "NextSong") = true /\
                 field o "userId" <> VNull /\
                 r = [field o "userId"; field o "firstName"; field o "lastName";
                      field o "gender"; field o "level"]).
Proof.
  apply (users_table_distinct_rows input_data output_data upgrade_session).
  - reflexivity.
  - apply incl_columns. reflexivity.
Defined.

(** ** Time table *)

(** C4: for every log corpus on which the stage reaches the time
    statement, the written Time table has one row for each NextSong event
    with a non-null ts, and the row is a function of ts alone.  For every
    ts the row is seven NULLs (when ts/1000 is no number) or a timestamp
    within the 64 bits followed by integers hour, day, week, month, year
    and weekday that are, by the calendar itself, the hour and the date of
    that timestamp, its day of the week and its week of the year; such
    fields are unique (lemma [time_fields_unique]).  For an integer ts the
    timestamp is the integer part of ts/1000*1000000 computed in binary64.
    ts = 1541106106796 gives 2018-11-01 21:01:46 with hour 21, day 1,
    week 44, month 11, year 2018 and weekday 5, also when ts comes as a
    string; ts = 1116187200143 gives 1116187200142999 microseconds, one
    short of ts * 1000; further rows show a time before the epoch, a leap
    day, a day of week 53 and the largest timestamp. *)
Theorem time_table_rows
        (inp out : string) (s : Session) (logs : list JsonObject) :
  json_files s !! log_glob inp = Some logs ->
  incl log_columns (infer_schema logs) ->
  exists time_table,
    parquet_files (snd (process_log_data inp out s)) !! (out +:+ "time_table/")
    = Some time_table /\
    schema time_table = ["start_time"; "hour"; "day"; "week"; "month"; "year"; "weekday"] /\
    rows time_table =
      map (fun o => time_row (field o "ts"))
          (List.filter
             (fun o => negb (is_null (field o "ts")))
             (List.filter (fun o => sql_eq (field o "page") (VStr "NextSong")) logs)) /\
    (forall ts,
       time_row ts = [VNull; VNull; VNull; VNull; VNull; VNull; VNull] \/
       exists t h d w m y wd,
         time_row ts = [VTimestamp t; VInt h; VInt d; VInt w; VInt m; VInt y; VInt wd] /\
         - 2 ^ 63 <= t <= 2 ^ 63 - 1 /\ time_fields t h d w m y wd) /\
    (forall ms, start_time_of ms (cell 0 (time_row (VInt ms)))) /\
    time_row (VInt 1541106106796) =
      [ VTimestamp 1541106106796000; VInt 21; VInt 1; VInt 44;
        VInt 11; VInt 2018; VInt 5 ] /\
    ( Calendar.year_of 1541106106796000, Calendar.month_of 1541106106796000,
      Calendar.dayofmonth_of 1541106106796000, Calendar.hour_of 1541106106796000,
      Calendar.minute_of 1541106106796000, Calendar.second_of 1541106106796000 )
    = (2018, 11, 1, 21, 1, 46) /\
    time_row (VStr "1541106106796") = time_row (VInt 1541106106796) /\
    time_row (VInt 1116187200143) =
      [ VTimestamp 1116187200142999; VInt 20; VInt 15; VInt 19;
        VInt 5; VInt 2005; VInt 1 ] /\
    time_row (VInt (-1)) =
      [ VTimestamp (-1000); VInt 23; VInt 31; VInt 1; VInt 12; VInt 1969; VInt 4 ] /\
    time_row (VInt 1456747200000) =
      [ VTimestamp 1456747200000000; VInt 12; VInt 29; VInt 9;
        VInt 2; VInt 2016; VInt 2 ] /\
    time_row (VInt 1609631999999) =
      [ VTimestamp 1609631999999000; VInt 23; VInt 2; VInt 53;
        VInt 1; VInt 2021; VInt 7 ] /\
    time_row (VInt (2 ^ 63 - 1)) =
      [ VTimestamp 9223372036854775807; VInt 4; VInt 10; VInt 1;
        VInt 1; VInt 294247; VInt 1 ].
Proof.
  intros Hj Hc. exists (time_of logs).
  destruct (process_log_data_run inp out s logs Hj Hc) as (e & -> & _). simpl.
  split; [apply lookup_insert_eq|].
  split; [reflexivity|]. split; [reflexivity|].
  split; [exact time_row_fields|].
  split; [exact start_time_of_int|].
  repeat split; vm_compute; reflexivity.
Qed.

Lemma time_table_rows_witness :
  exists time_table,
    parquet_files (snd (process_log_data input_data output_data upgrade_session))
      !! (output_data +:+ "time_table/") = Some time_table /\
    schema time_table = ["start_time"; "hour"; "day"; "week"; "month"; "year"; "weekday"] /\
    rows time_table =
      map (fun o => time_row (field o "ts"))
          (List.filter
             (fun o => negb (is_null (field o "ts")))
             (List.filter (fun o => sql_eq (field o "page") (VStr "NextSong"))
                [ log_event "7" "free" 1541106106796;
                  log_event "7" "paid" 1541106132796;
                  log_event "7" "paid" 1541106352796 ])) /\
    (forall ts,
       time_row ts = [VNull; VNull; VNull; VNull; VNull; VNull; VNull] \/
       exists t h d w m y wd,
         time_row ts = [VTimestamp t; VInt h; VInt d; VInt w; VInt m; VInt y; VInt wd] /\
         - 2 ^ 63 <= t <= 2 ^ 63 - 1 /\ time_fields t h d w m y wd) /\
    (forall ms, start_time_of ms (cell 0 (time_row (VInt ms)))) /\
    time_row (VInt 1541106106796) =
      [ VTimestamp 1541106106796000; VInt 21; VInt 1; VInt 44;
        VInt 11; VInt 2018; VInt 5 ] /\
    ( Calendar.year_of 1541106106796000, Calendar.month_of 1541106106796000,
      Calendar.dayofmonth_of 1541106106796000, Calendar.hour_of 1541106106796000,
      Calendar.minute_of 1541106106796000, Calendar.second_of 1541106106796000 )
    = (2018, 11, 1, 21, 1, 46) /\
    time_row (VStr "1541106106796") = time_row (VInt 1541106106796) /\
    time_row (VInt 1116187200143) =
      [ VTimestamp 1116187200142999; VInt 20; VInt 15; VInt 19;
        VInt 5; VInt 2005; VInt 1 ] /\
    time_row (VInt (-1)) =
      [ VTimestamp (-1000); VInt 23; VInt 31; VInt 1; VInt 12; VInt 1969; VInt 4 ] /\
    time_row (VInt 1456747200000) =
      [ VTimestamp 1456747200000000; VInt 12; VInt 29; VInt 9;
        VInt 2; VInt 2016; VInt 2 ] /\
    time_row (VInt 1609631999999) =
      [ VTimestamp 1609631999999000; VInt 23; VInt 2; VInt 53;
        VInt 1; VInt 2021; VInt 7 ] /\
    time_row (VInt (2 ^ 63 - 1)) =
      [ VTimestamp 9223372036854775807; VInt 4; VInt 10; VInt 1;
        VInt 1; VInt 294247; VInt 1 ].
Proof.
  apply (time_table_rows input_data output_data upgrade_session).
  - reflexivity.
  - apply incl_columns. reflexivity.
Defined.

(** C5: the time statement has no DISTINCT, so two NextSong events with
    the same ts leave two rows with the same start_time in the written
    Time table. *)
Theorem time_table_repeats_start_time :
  exists time_table r,
    parquet_files (snd (main simultaneous_session)) !! (output_data +:+ "time_table/")
    = Some time_table /\
    schema time_table = ["start_time"; "hour"; "day"; "week"; "month"; "year"; "weekday"] /\
    rows time_table = [r; r] /\
    cell 0 r = VTimestamp 1541106106796000.
Proof.
  exists (time_of [ log_event "7" "free" 1541106106796;
                    log_event "8" "free" 1541106106796 ]),
         (time_row (VInt 1541106106796)).
  split; [vm_compute; reflexivity|].
  split; [reflexivity|]. split; reflexivity.
Qed.

(** ** The whole run *)

Lemma main_unfold (s : Session) :
  main s =
  match process_song_data input_data output_data s with
  | (Ok _, s1) => process_log_data input_data output_data s1
  | (Err e, s1) => (Err e, s1)
  end.
Proof. reflexivity. Qed.

(** A run over corpora that have the columns of the first four statements
    writes the Songs, Artists, Users and Time tables and registers both
    views; it ends in the error of the songplays statement. *)
Lemma main_run (s : Session) (songs logs : list JsonObject) :
  json_files s !! song_glob input_data = Some songs ->
  json_files s !! log_glob input_data = Some logs ->
  incl song_columns_needed (infer_schema songs) ->
  incl log_columns (infer_schema logs) ->
  let vs := <["log_data_table" := frame (infer_schema logs) (played logs)]>
              (<["song_data_table" := json_to_df songs]> (views s)) in
  exists e,
    (rows (songs_of songs) <> [] -> songplays_query vs = Err e) /\
    main s =
    (Err e,
     {| views := vs;
        json_files := json_files s;
        parquet_files :=
          <[output_data +:+ "time_table/" := time_of logs]>
            (<[output_data +:+ "users_table/" := users_of logs]>
               (<[output_data +:+ "artists_table/" := artists_of songs]>
                  (<[output_data +:+ "songs_table/" := songs_of songs]>
                     (parquet_files s)))) |}).
Proof.
  intros Hs Hl Hcs Hcl vs.
  assert (Hc1 : incl songs_columns (infer_schema songs)).
  { intros c Hc. apply Hcs. unfold song_columns_needed. apply in_or_app. now left. }
  assert (Hc2 : incl artists_columns (infer_schema songs)).
  { intros c Hc. apply Hcs. unfold song_columns_needed. apply in_or_app. now right. }
  rewrite main_unfold.
  rewrite (process_song_data_ok input_data output_data s songs Hs Hc1 Hc2).
  match goal with |- context [process_log_data _ _ ?s1] =>
    destruct (process_log_data_run input_data output_data s1 logs Hl Hcl)
      as (e & Hrun & He & _)
  end.
  exists e. split.
  - intros Hne. apply (He (songs_of songs)); [|exact Hne].
    simpl. rewrite lookup_insert_ne by paths. apply lookup_insert_eq.
  - rewrite Hrun. reflexivity.
Qed.

(** ** The songplays statement never produces a table *)

Lemma process_song_data_keeps_songplays (inp out : string) (s : Session) :
  parquet_files (snd (process_song_data inp out s)) !! (out +:+ "songplays_table/") =
  parquet_files s !! (out +:+ "songplays_table/").
Proof.
  unfold process_song_data, bind, read_json, createOrReplaceTempView, sql, write_parquet.
  destruct (json_files s !! _); simpl; [|reflexivity].
  destruct (songs_query _); simpl; [|reflexivity].
  destruct (artists_query _); simpl; rewrite ?lookup_insert_ne by paths; reflexivity.
Qed.

Lemma process_log_data_fails (inp out : string) (s : Session) :
  (exists e, fst (process_log_data inp out s) = Err e) /\
  parquet_files (snd (process_log_data inp out s)) !! (out +:+ "songplays_table/") =
  parquet_files s !! (out +:+ "songplays_table/").
Proof.
  unfold process_log_data, bind, read_json, lift, createOrReplaceTempView, sql,
    write_parquet, read_parquet.
  destruct (json_files s !! _); simpl; [|eauto].
  destruct (filter_eq _ _ _); simpl; [|eauto].
  destruct (users_query _); simpl; [|eauto].
  destruct (time_query _); simpl;
    [|split; [eauto|now rewrite lookup_insert_ne by paths]].
  rewrite !lookup_insert_ne by paths.
  destruct (parquet_files s !! (out +:+ "songs_table/")) as [song_df|]; simpl;
    [|split; [eauto|now rewrite !lookup_insert_ne by paths]].
  destruct (rows song_df); simpl;
    [split; [eauto|now rewrite !lookup_insert_ne by paths]|].
  match goal with |- context [songplays_query ?vs] =>
    destruct (songplays_query_fails vs) as [e ->]
  end.
  simpl. split; [eauto|now rewrite !lookup_insert_ne by paths].
Qed.

Lemma main_fails (s : Session) :
  (exists e, fst (main s) = Err e) /\
  parquet_files (snd (main s)) !! (output_data +:+ "songplays_table/") =
  parquet_files s !! (output_data +:+ "songplays_table/").
Proof.
  rewrite main_unfold.
  pose proof (process_song_data_keeps_songplays input_data output_data s) as H1.
  destruct (process_song_data input_data output_data s) as [[u|e] s1]; simpl in *.
  - destruct (process_log_data_fails input_data output_data s1) as [He H2].
    split; [exact He|]. now rewrite H2.
  - split; [eauto|exact H1].
Qed.

(** ** The songplays join *)

Lemma length_filter_list_prod {A B} (p : A * B -> bool) (la : list A) (lb : list B) :
  length (List.filter p (list_prod la lb)) =
  list_sum (map (fun a => length (List.filter (fun b => p (a, b)) lb)) la).
Proof.
  induction la as [|a la IH]; simpl; [reflexivity|].
  rewrite List.filter_app, length_app, IH, filter_map_swap, length_map. reflexivity.
Qed.

Lemma length_filter_le {A} (p : A -> bool) (l : list A) :
  (length (List.filter p l) <= length l)%nat.
Proof.
  induction l as [|x l IH]; simpl; [lia|]. destruct (p x); simpl; lia.
Qed.

Lemma list_sum_at_most_one {A} (f : A -> nat) (l : list A) :
  (forall a, In a l -> (f a <= 1)%nat) -> (list_sum (map f l) <= length l)%nat.
Proof.
  induction l as [|a l IH]; simpl; intros H; [lia|].
  specialize (H a (or_introl eq_refl)) as Ha.
  assert (list_sum (map f l) <= length l)%nat by (apply IH; intros; apply H; now right).
  lia.
Qed.

(** The views that the songplays statement finds at the end of a run. *)
Lemma main_views (s : Session) (songs logs : list JsonObject) :
  json_files s !! song_glob input_data = Some songs ->
  json_files s !! log_glob input_data = Some logs ->
  incl song_columns_needed (infer_schema songs) ->
  incl log_columns (infer_schema logs) ->
  views (snd (main s)) !! "log_data_table" = Some (frame (infer_schema logs) (played logs)) /\
  views (snd (main s)) !! "song_data_table" = Some (frame (infer_schema songs) songs).
Proof.
  intros Hs Hl Hcs Hcl.
  destruct (main_run s songs logs Hs Hl Hcs Hcl) as (e & _ & ->). simpl.
  split; [apply lookup_insert_eq|].
  rewrite lookup_insert_ne by discriminate. apply lookup_insert_eq.
Qed.

(** C3, as stated, fails on two counts.  The one NextSong event of this
    corpus matches a catalog record on (artist, title), yet the run ends
    in an error and leaves no Songplays table: the statement does not pass
    analysis.  And the join of the statement pairs the event with both
    catalog records of that title: two joined rows for one filtered log
    row. *)
Lemma songplays_rows_not_iff_match :
  let s' := snd (main duplicate_title_session) in
  matches (log_event "7" "free" 1541106106796, song_S1) = true /\
  fst (main duplicate_title_session) = Err (CannotResolve (Some "logT") "ts") /\
  parquet_files s' !! (output_data +:+ "songplays_table/") = None /\
  exists j, songplays_from (views s') = Ok j /\
            length (tuples j) = 2%nat /\
            length (played [log_event "7" "free" 1541106106796]) = 1%nat.
Proof.
  split; [reflexivity|]. split; [vm_compute; reflexivity|].
  split; [vm_compute; reflexivity|].
  eexists. split; [vm_compute; reflexivity|]. split; reflexivity.
Qed.

(** C3, amended: at the end of every run that reaches the songplays
    statement, a row of the statement's join exists if and only if a
    NextSong log event's (artist, song) equals, both not NULL, some song
    record's (artist_name, title); an event with no match contributes no
    row and an event contributes one row for each record it matches.  So
    the joined rows number the sum over the filtered log rows of their
    matches: at most filtered log rows times song records, and at most
    the filtered log rows when no event matches two records. *)
Theorem songplays_join_rows (s : Session) (songs logs : list JsonObject) :
  json_files s !! song_glob input_data = Some songs ->
  json_files s !! log_glob input_data = Some logs ->
  incl song_columns_needed (infer_schema songs) ->
  incl log_columns (infer_schema logs) ->
  incl ["artist"; "song"] (infer_schema logs) ->
  exists j,
    songplays_from (views (snd (main s))) = Ok j /\
    (forall t, In t (tuples j) <->
       exists l o,
         In l logs /\ sql_eq (field l "page") (VStr "NextSong") = true /\
         In o songs /\
         sql_eq (field l "artist") (field o "artist_name") = true /\
         sql_eq (field l "song") (field o "title") = true /\
         t = (encode (infer_schema logs) l ++ encode (infer_schema songs) o)%list) /\
    length (tuples j) =
      list_sum (map (fun l => length (List.filter (fun o => matches (l, o)) songs))
                    (played logs)) /\
    (length (tuples j) <= length (played logs) * length songs)%nat /\
    ((forall l, In l (played logs) ->
                (length (List.filter (fun o => matches (l, o)) songs) <= 1)%nat) ->
     (length (tuples j) <= length (played logs))%nat).
Proof.
  intros Hs Hl Hcs Hcl Hj.
  destruct (main_views s songs logs Hs Hl Hcs Hcl) as [Hvl Hvs].
  assert (Hc : incl ["artist_name"; "title"] (infer_schema songs)).
  { intros c Hc. apply Hcs. unfold song_columns_needed. simpl in *. tauto. }
  eexists. split; [exact (songplays_from_frame _ _ _ _ _ Hvl Hvs Hj Hc)|]. simpl.
  split; [|split; [|split]].
  - intros t. rewrite in_map_iff. split.
    + intros ([l o] & <- & Hin). apply filter_In in Hin as [Hin Hm].
      apply in_prod_iff in Hin as [Hlp Ho]. apply filter_In in Hlp as [Hlin Hp].
      unfold matches in Hm. simpl in Hm. apply andb_true_iff in Hm as [Ha Ht].
      exists l, o. repeat split; auto.
    + intros (l & o & Hlin & Hp & Ho & Ha & Ht & ->). exists (l, o).
      split; [reflexivity|]. apply filter_In. split.
      * apply in_prod_iff. split; [apply filter_In; auto|exact Ho].
      * unfold matches. simpl. now rewrite Ha, Ht.
  - rewrite length_map. apply length_filter_list_prod.
  - rewrite length_map, <- length_prod. apply length_filter_le.
  - intros H. rewrite length_map, length_filter_list_prod.
    now apply list_sum_at_most_one.
Qed.

Lemma songplays_join_rows_witness :
  exists j,
    songplays_from (views (snd (main scenario_session_all_fields))) = Ok j /\
    (forall t, In t (tuples j) <->
       exists l o,
         In l [log_event "7" "free" 1541106106796] /\
         sql_eq (field l "page") (VStr "NextSong") = true /\
         In o [song_S1] /\
         sql_eq (field l "artist") (field o "artist_name") = true /\
         sql_eq (field l "song") (field o "title") = true /\
         t = (encode (infer_schema [log_event "7" "free" 1541106106796]) l ++
              encode (infer_schema [song_S1]) o)%list) /\
    length (tuples j) =
      list_sum (map (fun l => length (List.filter (fun o => matches (l, o)) [song_S1]))
                    (played [log_event "7" "free" 1541106106796])) /\
    (length (tuples j) <=
     length (played [log_event "7" "free" 1541106106796]) * length [song_S1])%nat /\
    (length (tuples j) <= length (played [log_event "7" "free" 1541106106796]))%nat.
Proof.
  destruct (songplays_join_rows scenario_session_all_fields
              [song_S1] [log_event "7" "free" 1541106106796])
    as (j & Hj & Hiff & Hsum & Hprod & Hone).
  - reflexivity.
  - reflexivity.
  - apply incl_columns. reflexivity.
  - apply incl_columns. reflexivity.
  - apply incl_columns. reflexivity.
  - exists j. split; [exact Hj|]. split; [exact Hiff|].
    split; [exact Hsum|]. split; [exact Hprod|].
    apply Hone. intros l Hl. vm_compute in Hl. destruct Hl as [<-|[]].
    vm_compute. apply le_n.
Defined.

(** C9: the join of the songplays statement is over the raw view and does
    not exclude a song record whose song_id is null.  On this corpus, a
    keyed and an unkeyed record of the title that is played once, the run
    reads back a Songs table of one row and reaches the songplays
    statement; its join pairs the play with both records, and the select
    list, but for its start_time item (and for the songplay_id, which is
    not stable), gives for the unkeyed record a row whose song_id is NULL.  Yet the statement fails on [logT.ts], the run
    ends in that error and no Songplays table is written: the row that the
    claim expects is in no written table. *)
Theorem songplays_null_song_id_not_written :
  let s' := snd (main mixed_catalog_session) in
  (exists song_df,
     fst (read_parquet (output_data +:+ "songs_table/") s') = Ok song_df /\
     length (rows song_df) = 1%nat) /\
  fst (main mixed_catalog_session) = Err (CannotResolve (Some "logT") "ts") /\
  parquet_files s' !! (output_data +:+ "songplays_table/") = None /\
  exists j song_id songplays,
    songplays_from (views s') = Ok j /\
    length (tuples j) = 2%nat /\
    qcol "song" "song_id" (scope j) = Ok song_id /\
    In (VStr "S1") (map (song_id O) (tuples j)) /\
    In VNull (map (song_id O) (tuples j)) /\
    select false songplays_select j = Err (CannotResolve (Some "logT") "ts") /\
    select false
      (List.filter
         (fun it => negb (String.eqb (snd it) "start_time" ||
                          String.eqb (snd it) "songplay_id"))
         songplays_select) j
    = Ok songplays /\
    schema songplays =
      [ "month"; "year"; "user_id"; "level"; "song_id"; "artist_id";
        "session_id"; "location"; "user_agent" ] /\
    length (rows songplays) = 2%nat /\
    In [ VInt 11; VInt 2018; VStr "7"; VStr "free";
         VStr "S1"; VStr "A1"; VInt 1; VStr "NY"; VStr "UA" ] (rows songplays) /\
    In [ VInt 11; VInt 2018; VStr "7"; VStr "free";
         VNull; VStr "A1"; VInt 1; VStr "NY"; VStr "UA" ] (rows songplays).
Proof.
  split; [eexists; split; [vm_compute; reflexivity|reflexivity]|].
  split; [vm_compute; reflexivity|].
  split; [vm_compute; reflexivity|].
  do 3 eexists. split; [vm_compute; reflexivity|].
  split; [reflexivity|].
  split; [vm_compute; reflexivity|].
  split; [simpl; tauto|]. split; [simpl; tauto|].
  split; [vm_compute; reflexivity|].
  split; [vm_compute; reflexivity|].
  split; [reflexivity|]. split; [reflexivity|].
  split; simpl; tauto.
Qed.

(** ** The event-log stage without the view of the song stage *)

(** C10: the songplays statement queries the view song_data_table, which
    only the song stage registers.  In every session in which that view is
    not registered the statement fails with "table or view not found",
    whatever the log view holds, and it fails so for want of the view
    alone: with a view of that name registered, whatever it holds, that is
    not its error.  The event-log stage ends in an error without writing
    the Songplays table.  When the persisted Songs table is there and the
    statements before succeed, the stage writes the Users and Time tables
    and reads the Songs table; with a row or more in it the read succeeds
    and the stage then fails with that very error: the parquet read does
    not stand in for the view.  (With no row in it the read itself fails,
    for want of a schema.) *)
Theorem log_stage_needs_song_view (inp out : string) (s : Session) :
  views s !! "song_data_table" = None ->
  (forall log_df,
     songplays_query (<["log_data_table" := log_df]> (views s)) =
     Err (TableOrViewNotFound "song_data_table")) /\
  (forall log_df song_view,
     songplays_query
       (<["log_data_table" := log_df]> (<["song_data_table" := song_view]> (views s))) <>
     Err (TableOrViewNotFound "song_data_table")) /\
  (exists e, fst (process_log_data inp out s) = Err e) /\
  parquet_files (snd (process_log_data inp out s)) !! (out +:+ "songplays_table/") =
  parquet_files s !! (out +:+ "songplays_table/") /\
  (forall song_df logs,
     parquet_files s !! (out +:+ "songs_table/") = Some song_df ->
     json_files s !! log_glob inp = Some logs ->
     incl log_columns (infer_schema logs) ->
     fst (process_log_data inp out s) =
       Err (match rows song_df with
            | [] => UnableToInferSchema (out +:+ "songs_table/")
            | _ :: _ => TableOrViewNotFound "song_data_table"
            end) /\
     match rows song_df with
     | [] => fst (read_parquet (out +:+ "songs_table/") s) =
             Err (UnableToInferSchema (out +:+ "songs_table/"))
     | _ :: _ => exists df, fst (read_parquet (out +:+ "songs_table/") s) = Ok df
     end /\
     parquet_files (snd (process_log_data inp out s)) !! (out +:+ "users_table/")
     = Some (users_of logs) /\
     parquet_files (snd (process_log_data inp out s)) !! (out +:+ "time_table/")
     = Some (time_of logs)).
Proof.
  intros Hv.
  assert (Hq : forall log_df,
             songplays_query (<["log_data_table" := log_df]> (views s)) =
             Err (TableOrViewNotFound "song_data_table")).
  { intros log_df. unfold songplays_query, songplays_from, from_view.
    rewrite lookup_insert_eq. simpl.
    rewrite lookup_insert_ne by discriminate. rewrite Hv. reflexivity. }
  split; [exact Hq|].
  split.
  { intros log_df song_view H.
    apply songplays_query_error in H; [exact H| |].
    - rewrite lookup_insert_eq. eauto.
    - rewrite lookup_insert_ne by discriminate. rewrite lookup_insert_eq. eauto. }
  destruct (process_log_data_fails inp out s) as [He Hk].
  split; [exact He|]. split; [exact Hk|].
  intros song_df logs Hp Hj Hc.
  destruct (process_log_data_run inp out s logs Hj Hc) as (e & Hrun & Herr & Hempty).
  rewrite Hrun. cbn [fst snd parquet_files].
  split; [|split; [|split; [|apply lookup_insert_eq]]].
  - destruct (rows song_df) as [|r rs] eqn:E.
    + now rewrite (Hempty song_df Hp E).
    + specialize (Herr song_df Hp ltac:(rewrite E; discriminate)).
      rewrite Hq in Herr. now injection Herr as <-.
  - unfold read_parquet. rewrite Hp. destruct (rows song_df); simpl; eauto.
  - rewrite lookup_insert_ne by paths. apply lookup_insert_eq.
Qed.

Lemma log_stage_needs_song_view_witness :
  (forall log_df,
     songplays_query (<["log_data_table" := log_df]> (views resumed_session)) =
     Err (TableOrViewNotFound "song_data_table")) /\
  (forall log_df song_view,
     songplays_query
       (<["log_data_table" := log_df]>
          (<["song_data_table" := song_view]> (views resumed_session))) <>
     Err (TableOrViewNotFound "song_data_table")) /\
  (exists e, fst (process_log_data input_data output_data resumed_session) = Err e) /\
  parquet_files (snd (process_log_data input_data output_data resumed_session))
    !! (output_data +:+ "songplays_table/") =
  parquet_files resumed_session !! (output_data +:+ "songplays_table/") /\
  fst (process_log_data input_data output_data resumed_session)
  = Err (TableOrViewNotFound "song_data_table") /\
  (exists df, fst (read_parquet (output_data +:+ "songs_table/") resumed_session) = Ok df) /\
  parquet_files (snd (process_log_data input_data output_data resumed_session))
    !! (output_data +:+ "users_table/")
  = Some (users_of [log_event "7" "free" 1541106106796]) /\
  parquet_files (snd (process_log_data input_data output_data resumed_session))
    !! (output_data +:+ "time_table/")
  = Some (time_of [log_event "7" "free" 1541106106796]).
Proof.
  destruct (log_stage_needs_song_view input_data output_data resumed_session)
    as (Hq & Hn & He & Hk & Hrun).
  - reflexivity.
  - split; [exact Hq|]. split; [exact Hn|]. split; [exact He|]. split; [exact Hk|].
    apply (Hrun (songs_of [song_S1]) [log_event "7" "free" 1541106106796]).
    + reflexivity.
    + reflexivity.
    + apply incl_columns. reflexivity.
Defined.

(** ** The song side of the join *)

(** C1: the FROM clause of the songplays statement names the view
    song_data_table; the frame read back from songs_table/ is bound to
    song_df and not used.  On this corpus the song side of the join has
    the two raw records, with all nine columns, while the persisted Songs
    table has the one record with a song_id, with five columns, and the
    join pairs the play with both. *)
Theorem join_song_side_is_the_view :
  let s' := snd (main mixed_catalog_session) in
  exists song_side songs j,
    from_view (views s') "song_data_table" "song" = Ok song_side /\
    parquet_files s' !! (output_data +:+ "songs_table/") = Some songs /\
    tuples song_side =
      map (encode (infer_schema [song_S1; song_unkeyed])) [song_S1; song_unkeyed] /\
    rows songs = [[VStr "S1"; VStr "T1"; VStr "A1"; VInt 2000; VDouble 200000000]] /\
    length (tuples song_side) = 2%nat /\ length (rows songs) = 1%nat /\
    In ("song", "artist_name") (scope song_side) /\
    ~ In "artist_name" (schema songs) /\
    songplays_from (views s') = Ok j /\ length (tuples j) = 2%nat.
Proof.
  do 3 eexists.
  split; [vm_compute; reflexivity|].
  split; [vm_compute; reflexivity|].
  split; [reflexivity|]. split; [reflexivity|].
  split; [reflexivity|]. split; [reflexivity|].
  split; [simpl; tauto|].
  split; [simpl; intros H; repeat destruct H as [H|H]; discriminate || exact H|].
  split; [vm_compute; reflexivity|reflexivity].
Qed.

(** ** The end-to-end scenario *)

(** C2: on the scenario the run writes no Songplays table.  With the
    records as written the artists statement already fails, for want of
    the column artist_location.  With all fields there, the run gets to
    the songplays statement, whose join holds the one pair of the
    scenario, and fails on [logT.ts] of its select list; the other ten
    items of the list give the row that the scenario expects. *)
Theorem scenario_writes_no_songplays :
  fst (main scenario_session) = Err (CannotResolve None "artist_location") /\
  parquet_files (snd (main scenario_session)) !! (output_data +:+ "songplays_table/")
  = None /\
  fst (main scenario_session_all_fields) = Err (CannotResolve (Some "logT") "ts") /\
  parquet_files (snd (main scenario_session_all_fields))
    !! (output_data +:+ "songplays_table/") = None /\
  exists j,
    songplays_from (views (snd (main scenario_session_all_fields))) = Ok j /\
    length (tuples j) = 1%nat /\
    select false songplays_select j = Err (CannotResolve (Some "logT") "ts") /\
    select false
      (List.filter (fun it => negb (String.eqb (snd it) "start_time")) songplays_select) j
    = Ok {| schema := [ "songplay_id"; "month"; "year"; "user_id"; "level";
                        "song_id"; "artist_id"; "session_id"; "location";
                        "user_agent" ];
            rows := [ [ VInt 0; VInt 11; VInt 2018; VStr "7"; VStr "free";
                        VStr "S1"; VStr "A1"; VInt 1; VStr "NY"; VStr "UA" ] ] |}.
Proof.
  split; [vm_compute; reflexivity|]. split; [vm_compute; reflexivity|].
  split; [vm_compute; reflexivity|]. split; [vm_compute; reflexivity|].
  eexists. split; [vm_compute; reflexivity|].
  split; [reflexivity|]. split; vm_compute; reflexivity.
Qed.

(** ** Running twice *)

(** The statements read the views that the run itself has registered. *)
Lemma from_view_insert (vs : Views) (name alias : string) (df : DataFrame) :
  from_view (<[name := df]> vs) name alias = Ok (from_subquery df alias).
Proof. unfold from_view. now rewrite lookup_insert_eq. Qed.

Lemma songs_query_insert (df : DataFrame) (vs : Views) :
  songs_query (<["song_data_table" := df]> vs) = songs_query {["song_data_table" := df]}.
Proof.
  unfold songs_query.
  now rewrite from_view_insert, <- insert_empty, from_view_insert.
Qed.

Lemma artists_query_insert (df : DataFrame) (vs : Views) :
  artists_query (<["song_data_table" := df]> vs) = artists_query {["song_data_table" := df]}.
Proof.
  unfold artists_query.
  now rewrite from_view_insert, <- insert_empty, from_view_insert.
Qed.

Lemma users_query_insert (df : DataFrame) (vs : Views) :
  users_query (<["log_data_table" := df]> vs) = users_query {["log_data_table" := df]}.
Proof.
  unfold users_query.
  now rewrite from_view_insert, <- insert_empty, from_view_insert.
Qed.

Lemma time_query_insert (df : DataFrame) (vs : Views) :
  time_query (<["log_data_table" := df]> vs) = time_query {["log_data_table" := df]}.
Proof.
  unfold time_query.
  now rewrite from_view_insert, <- insert_empty, from_view_insert.
Qed.

Lemma songplays_query_insert (log_df song_df : DataFrame) (vs : Views) :
  songplays_query (<["log_data_table" := log_df]> (<["song_data_table" := song_df]> vs)) =
  songplays_query (<["log_data_table" := log_df]> {["song_data_table" := song_df]}).
Proof.
  unfold songplays_query, songplays_from, from_view.
  rewrite !lookup_insert_eq. simpl.
  rewrite lookup_insert_ne by discriminate. rewrite lookup_insert_eq.
  rewrite lookup_insert_ne by discriminate. now rewrite lookup_singleton_eq.
Qed.

Lemma lookup_apply_writes (ws : list (string * DataFrame)) (m : gmap string DataFrame)
      (k : string) :
  apply_writes ws m !! k =
  match written ws k with Some v => Some v | None => m !! k end.
Proof.
  induction ws as [|[k' v] ws IH]; simpl; [reflexivity|].
  destruct (String.eqb k' k) eqn:E.
  - apply String.eqb_eq in E. subst. apply lookup_insert_eq.
  - apply String.eqb_neq in E. now rewrite lookup_insert_ne.
Qed.

Lemma apply_writes_twice (ws : list (string * DataFrame)) (m : gmap string DataFrame) :
  apply_writes ws (apply_writes ws m) = apply_writes ws m.
Proof.
  apply map_eq. intros k. rewrite !lookup_apply_writes.
  destruct (written ws k); reflexivity.
Qed.

(** The outcome of a run and the tables it writes are decided by the JSON
    corpora alone: not by the views registered before, nor by the tables
    stored before. *)
Lemma main_effect (corpora : gmap string (list JsonObject)) :
  exists (r : Result unit) (ws : list (string * DataFrame)),
    forall s, json_files s = corpora ->
      fst (main s) = r /\
      json_files (snd (main s)) = corpora /\
      parquet_files (snd (main s)) = apply_writes ws (parquet_files s).
Proof.
  destruct (corpora !! song_glob input_data) as [songs|] eqn:E1.
  2:{ exists (Err (PathNotFound (song_glob input_data))), [].
      intros s <-. rewrite main_unfold.
      unfold process_song_data, bind, read_json. fold (song_glob input_data).
      rewrite E1. simpl. auto. }
  destruct (songs_query {["song_data_table" := json_to_df songs]}) as [T1|e1] eqn:E2.
  2:{ exists (Err e1), [].
      intros s <-. rewrite main_unfold.
      unfold process_song_data, bind, read_json, createOrReplaceTempView, sql.
      fold (song_glob input_data). rewrite E1. simpl.
      rewrite songs_query_insert, E2. simpl. auto. }
  destruct (artists_query {["song_data_table" := json_to_df songs]}) as [T2|e2] eqn:E3.
  2:{ exists (Err e2), [(output_data +:+ "songs_table/", T1)].
      intros s <-. rewrite main_unfold.
      unfold process_song_data, bind, read_json, createOrReplaceTempView, sql, write_parquet.
      fold (song_glob input_data). rewrite E1. simpl.
      rewrite songs_query_insert, E2. simpl.
      rewrite artists_query_insert, E3. simpl. auto. }
  assert (Hsong : forall s, json_files s = corpora ->
            process_song_data input_data output_data s =
            (Ok tt,
             {| views := <["song_data_table" := json_to_df songs]> (views s);
                json_files := corpora;
                parquet_files :=
                  apply_writes [ (output_data +:+ "artists_table/", T2);
                                 (output_data +:+ "songs_table/", T1) ]
                               (parquet_files s) |})).
  { intros s <-.
    unfold process_song_data, bind, read_json, createOrReplaceTempView, sql, write_parquet.
    fold (song_glob input_data). rewrite E1. simpl.
    rewrite songs_query_insert, E2. simpl.
    rewrite artists_query_insert, E3. reflexivity. }
  destruct (corpora !! log_glob input_data) as [logs|] eqn:E4.
  2:{ exists (Err (PathNotFound (log_glob input_data))),
             [ (output_data +:+ "artists_table/", T2);
               (output_data +:+ "songs_table/", T1) ].
      intros s Hs. rewrite main_unfold, (Hsong s Hs).
      unfold process_log_data, bind, read_json. fold (log_glob input_data).
      simpl json_files. rewrite E4. simpl. auto. }
  destruct (filter_eq (json_to_df logs) "page" (VStr "NextSong")) as [L|e5] eqn:E5.
  2:{ exists (Err e5),
             [ (output_data +:+ "artists_table/", T2);
               (output_data +:+ "songs_table/", T1) ].
      intros s Hs. rewrite main_unfold, (Hsong s Hs).
      unfold process_log_data, bind, read_json, lift. fold (log_glob input_data).
      simpl json_files. rewrite E4. simpl. rewrite E5. simpl. auto. }
  destruct (users_query {["log_data_table" := L]}) as [T3|e6] eqn:E6.
  2:{ exists (Err e6),
             [ (output_data +:+ "artists_table/", T2);
               (output_data +:+ "songs_table/", T1) ].
      intros s Hs. rewrite main_unfold, (Hsong s Hs).
      unfold process_log_data, bind, read_json, lift, createOrReplaceTempView, sql.
      fold (log_glob input_data).
      simpl json_files. rewrite E4. simpl. rewrite E5. simpl.
      rewrite users_query_insert, E6. simpl. auto. }
  destruct (time_query {["log_data_table" := L]}) as [T4|e7] eqn:E7.
  2:{ exists (Err e7),
             [ (output_data +:+ "users_table/", T3);
               (output_data +:+ "artists_table/", T2);
               (output_data +:+ "songs_table/", T1) ].
      intros s Hs. rewrite main_unfold, (Hsong s Hs).
      unfold process_log_data, bind, read_json, lift, createOrReplaceTempView, sql,
        write_parquet.
      fold (log_glob input_data).
      simpl json_files. rewrite E4. simpl. rewrite E5. simpl.
      rewrite users_query_insert, E6. simpl.
      rewrite time_query_insert, E7. simpl. auto. }
  destruct (rows T1) as [|r1 rs1] eqn:E8.
  { exists (Err (UnableToInferSchema (output_data +:+ "songs_table/"))),
           [ (output_data +:+ "time_table/", T4);
             (output_data +:+ "users_table/", T3);
             (output_data +:+ "artists_table/", T2);
             (output_data +:+ "songs_table/", T1) ].
    intros s Hs. rewrite main_unfold, (Hsong s Hs).
    unfold process_log_data, bind, read_json, lift, createOrReplaceTempView, sql,
      write_parquet, read_parquet.
    fold (log_glob input_data).
    simpl json_files. rewrite E4. simpl. rewrite E5. simpl.
    rewrite users_query_insert, E6. simpl.
    rewrite time_query_insert, E7. simpl.
    rewrite !lookup_insert_ne by paths. rewrite lookup_insert_eq, E8. simpl. auto. }
  destruct (songplays_query_fails
              (<["log_data_table" := L]> {["song_data_table" := json_to_df songs]}))
    as [e9 E9].
  exists (Err e9),
         [ (output_data +:+ "time_table/", T4);
           (output_data +:+ "users_table/", T3);
           (output_data +:+ "artists_table/", T2);
           (output_data +:+ "songs_table/", T1) ].
  intros s Hs. rewrite main_unfold, (Hsong s Hs).
  unfold process_log_data, bind, read_json, lift, createOrReplaceTempView, sql,
    write_parquet, read_parquet.
  fold (log_glob input_data).
  simpl json_files. rewrite E4. simpl. rewrite E5. simpl.
  rewrite users_query_insert, E6. simpl.
  rewrite time_query_insert, E7. simpl.
  rewrite !lookup_insert_ne by paths. rewrite lookup_insert_eq, E8. simpl.
  rewrite songplays_query_insert, E9. simpl. auto.
Qed.

(** C8: running the job again over unchanged corpora, in the same session
    or in a new one (whatever views it starts with), ends the same way and
    leaves every stored table as the first run left it.  (The Songplays
    table is written by neither run.) *)
Theorem main_twice (s : Session) (vs : Views) :
  let s1 := snd (main s) in
  let again := main {| views := vs;
                       json_files := json_files s1;
                       parquet_files := parquet_files s1 |} in
  json_files s1 = json_files s /\
  fst again = fst (main s) /\
  json_files (snd again) = json_files s /\
  parquet_files (snd again) = parquet_files s1.
Proof.
  intros s1 again. subst s1 again.
  destruct (main_effect (json_files s)) as (r & ws & H).
  destruct (H s eq_refl) as (Hr & Hj & Hp).
  match goal with |- context [main ?s2] =>
    match s2 with
    | s => fail 1
    | _ => destruct (H s2 ltac:(simpl; exact Hj)) as (Hr' & Hj' & Hp')
    end
  end.
  split; [exact Hj|]. split; [congruence|]. split; [exact Hj'|].
  rewrite Hp'. simpl. rewrite Hp. apply apply_writes_twice.
Qed.

Lemma main_twice_witness :
  let s := scenario_session_all_fields in
  let s1 := snd (main s) in
  let again := main {| views := ∅;
                       json_files := json_files s1;
                       parquet_files := parquet_files s1 |} in
  (json_files s1 = json_files s /\
   fst again = fst (main s) /\
   json_files (snd again) = json_files s /\
   parquet_files (snd again) = parquet_files s1) /\
  parquet_files s1 !! (output_data +:+ "songs_table/") = Some (songs_of [song_S1]) /\
  parquet_files s1 !! (output_data +:+ "time_table/")
  = Some (time_of [log_event "7" "free" 1541106106796]).
Proof.
  split; [exact (main_twice scenario_session_all_fields ∅)|].
  split; vm_compute; reflexivity.
Defined.

(** * Further properties of the stages *)

(** ** Columns that a corpus does not have *)

Lemma first_missing_none (cols sch : list string) :
  first_missing cols sch = None <-> incl cols sch.
Proof.
  unfold first_missing. split.
  - intros H c Hc. pose proof (find_none _ _ H c Hc) as E. simpl in E.
    apply negb_false_iff, existsb_exists in E as (x & Hx & E).
    apply String.eqb_eq in E. now subst.
  - intros H. destruct (find _ cols) as [c|] eqn:E; [|reflexivity].
    apply find_some in E as [Hc E]. apply negb_true_iff in E.
    assert (existsb (String.eqb c) sch = true); [|congruence].
    apply existsb_exists. exists c. split; [now apply H|apply String.eqb_refl].
Qed.

Lemma first_missing_some (cols sch : list string) (c : string) :
  first_missing cols sch = Some c -> In c cols /\ ~ In c sch.
Proof.
  unfold first_missing. intros H. apply find_some in H as [Hc E].
  split; [exact Hc|]. intros Hin. apply negb_true_iff in E.
  assert (existsb (String.eqb c) sch = true); [|congruence].
  apply existsb_exists. exists c. split; [exact Hin|apply String.eqb_refl].
Qed.

Lemma existsb_eqb_In (c : string) (sch : list string) :
  existsb (String.eqb c) sch = true <-> In c sch.
Proof.
  rewrite existsb_exists. split.
  - intros (x & Hx & E). apply String.eqb_eq in E. now subst.
  - intros H. exists c. split; [exact H|apply String.eqb_refl].
Qed.

Lemma col_unresolved (a : string) (sch : list string) (c : string) :
  ~ In c sch -> col c (map (fun c => (a, c)) sch) = Err (CannotResolve None c).
Proof.
  intros H. unfold col. rewrite index_where_map. simpl.
  rewrite index_where_none; [reflexivity|].
  intros x Hx. apply String.eqb_neq. intros ->. contradiction.
Qed.

Lemma qcol_unresolved (a : string) (sch : list string) (c : string) :
  ~ In c sch -> qcol a c (map (fun c => (a, c)) sch) = Err (CannotResolve (Some a) c).
Proof.
  intros H. unfold qcol. rewrite index_where_map. simpl.
  rewrite index_where_none; [reflexivity|].
  intros x Hx. apply andb_false_iff. right.
  apply String.eqb_neq. intros ->. contradiction.
Qed.

(** Analysing the columns [cols] one after the other stops at the first
    that is missing. *)
Lemma sequence_cols_missing (a : string) (sch cols : list string) (c : string) :
  first_missing cols sch = Some c ->
  sequence (map (fun x => col x (map (fun c => (a, c)) sch)) cols) =
  Err (CannotResolve None c).
Proof.
  unfold first_missing. induction cols as [|x cols IH]; simpl; [discriminate|].
  destruct (existsb (String.eqb x) sch) eqn:E; simpl.
  - intros H. apply existsb_eqb_In in E.
    destruct (compiles_col a sch x E) as (f & -> & _). simpl.
    now rewrite (IH H).
  - intros [= <-]. rewrite col_unresolved; [reflexivity|].
    intros Hin. apply existsb_eqb_In in Hin. congruence.
Qed.

Lemma analyse_combine (sc : Scope) (l names : list string) :
  length names = length l ->
  map (fun it : Expr * string => fst it sc) (combine (map col l) names) =
  map (fun x => col x sc) l.
Proof.
  revert names. induction l as [|x l IH]; intros [|n names] Hlen;
    simpl in *; try discriminate; [reflexivity|].
  f_equal. apply IH. now injection Hlen.
Qed.

(** A statement [SELECT (DISTINCT) key, c1, ... FROM view WHERE key IS NOT
    NULL] over a frame that misses one of its columns. *)
Lemma keyed_select_missing (d : bool) (a key : string) (cols names sch : list string)
      (objs : list JsonObject) (c : string) :
  first_missing (key :: cols) sch = Some c ->
  length names = length (key :: cols) ->
  rbind (where_ {| scope := map (fun c => (a, c)) sch; tuples := map (encode sch) objs |}
                (is_not_null (col key)))
        (select d (combine (map col (key :: cols)) names)) =
  Err (CannotResolve None c).
Proof.
  intros Hm Hlen.
  destruct (existsb (String.eqb key) sch) eqn:E.
  - apply existsb_eqb_In in E.
    rewrite (where_decides _ _ _ (not_null key)).
    2:{ apply decides_is_not_null with (g := fun _ o => field o key).
        now apply compiles_col. }
    unfold rbind at 1. unfold select. cbn [scope tuples].
    rewrite (analyse_combine _ (key :: cols) names Hlen).
    now rewrite (sequence_cols_missing a sch (key :: cols) c Hm).
  - unfold first_missing in Hm. simpl in Hm. rewrite E in Hm. simpl in Hm.
    injection Hm as <-.
    unfold where_, is_not_null. cbn [scope].
    rewrite col_unresolved; [reflexivity|].
    intros Hin. apply existsb_eqb_In in Hin. congruence.
Qed.

Lemma songs_query_missing (vs : Views) (sch : list string) (objs : list JsonObject)
      (c : string) :
  vs !! "song_data_table" = Some (frame sch objs) ->
  first_missing songs_columns sch = Some c ->
  songs_query vs = Err (CannotResolve None c).
Proof.
  intros Hv Hm. unfold songs_query, from_view. rewrite Hv.
  exact (keyed_select_missing false "song_data_table" "song_id"
           ["title"; "artist_id"; "year"; "duration"] songs_columns sch objs c Hm eq_refl).
Qed.

Lemma artists_query_missing (vs : Views) (sch : list string) (objs : list JsonObject)
      (c : string) :
  vs !! "song_data_table" = Some (frame sch objs) ->
  first_missing artists_columns sch = Some c ->
  artists_query vs = Err (CannotResolve None c).
Proof.
  intros Hv Hm. unfold artists_query, from_view. rewrite Hv.
  exact (keyed_select_missing true "song_data_table" "artist_id"
           ["artist_name"; "artist_location"; "artist_latitude"; "artist_longitude"]
           artists_columns sch objs c Hm eq_refl).
Qed.

Lemma users_query_missing (vs : Views) (sch : list string) (objs : list JsonObject)
      (c : string) :
  vs !! "log_data_table" = Some (frame sch objs) ->
  first_missing users_columns sch = Some c ->
  users_query vs = Err (CannotResolve None c).
Proof.
  intros Hv Hm. unfold users_query, from_view. rewrite Hv.
  exact (keyed_select_missing true "log_data_table" "userId"
           ["firstName"; "lastName"; "gender"; "level"]
           users_names sch objs c Hm eq_refl).
Qed.

(** ** When the song stage succeeds, and what it leaves when it fails *)

(** X1: the song stage returns normally exactly when its glob matches a
    corpus whose inferred schema has the five columns of the songs
    statement and the five of the artists statement. *)
Theorem song_stage_succeeds_iff (inp out : string) (s : Session) :
  fst (process_song_data inp out s) = Ok tt <->
  exists corpus,
    json_files s !! song_glob inp = Some corpus /\
    incl song_columns_needed (infer_schema corpus).
Proof.
  split.
  - unfold process_song_data, bind, read_json, createOrReplaceTempView, sql, write_parquet.
    fold (song_glob inp).
    destruct (json_files s !! song_glob inp) as [corpus|]; simpl; [|discriminate].
    intros H. exists corpus. split; [reflexivity|].
    destruct (first_missing songs_columns (infer_schema corpus)) as [c|] eqn:E1.
    { rewrite (songs_query_missing _ (infer_schema corpus) corpus c) in H;
        [discriminate|apply lookup_insert_eq|exact E1]. }
    apply first_missing_none in E1.
    rewrite (songs_query_frame _ (infer_schema corpus) corpus) in H;
      [|apply lookup_insert_eq|exact E1].
    simpl in H.
    destruct (first_missing artists_columns (infer_schema corpus)) as [c|] eqn:E2.
    { rewrite (artists_query_missing _ (infer_schema corpus) corpus c) in H;
        [discriminate|apply lookup_insert_eq|exact E2]. }
    apply first_missing_none in E2.
    intros c Hc. apply in_app_or in Hc as [Hc|Hc]; auto.
  - intros (corpus & Hj & Hc).
    rewrite (process_song_data_ok inp out s corpus Hj); [reflexivity| |];
      intros c Hin; apply Hc; apply in_or_app; auto.
Qed.

(** X2: when the corpus misses a column of the songs statement, the song
    stage fails on the first such column, having registered its view and
    written nothing: the stored tables are as before. *)
Theorem song_stage_missing_songs_column
        (inp out : string) (s : Session) (corpus : list JsonObject) (c : string) :
  json_files s !! song_glob inp = Some corpus ->
  first_missing songs_columns (infer_schema corpus) = Some c ->
  process_song_data inp out s =
  (Err (CannotResolve None c),
   {| views := <["song_data_table" := json_to_df corpus]> (views s);
      json_files := json_files s;
      parquet_files := parquet_files s |}).
Proof.
  intros Hj Hm.
  unfold process_song_data, bind, read_json, createOrReplaceTempView, sql, write_parquet.
  fold (song_glob inp). rewrite Hj. simpl.
  rewrite (songs_query_missing _ (infer_schema corpus) corpus c);
    [reflexivity|apply lookup_insert_eq|exact Hm].
Qed.

Lemma song_stage_missing_songs_column_witness :
  process_song_data input_data output_data untitled_catalog_session =
  (Err (CannotResolve None "title"),
   {| views := <["song_data_table" :=
                   json_to_df [ [ ("song_id", VStr "S1"); ("artist_id", VStr "A1");
                                  ("artist_name", VStr "ArtistX"); ("year", VInt 2000);
                                  ("duration", VDouble 200000000) ] ]]>
                 (views untitled_catalog_session);
      json_files := json_files untitled_catalog_session;
      parquet_files := parquet_files untitled_catalog_session |}).
Proof.
  apply (song_stage_missing_songs_column input_data output_data untitled_catalog_session).
  - reflexivity.
  - reflexivity.
Defined.

(** X3: there is no rollback.  When the corpus has the columns of the
    songs statement and misses one of the artists statement, the stage
    fails on the first such column with the Songs table already replaced;
    the Artists table is not touched. *)
Theorem song_stage_missing_artists_column
        (inp out : string) (s : Session) (corpus : list JsonObject) (c : string) :
  json_files s !! song_glob inp = Some corpus ->
  incl songs_columns (infer_schema corpus) ->
  first_missing artists_columns (infer_schema corpus) = Some c ->
  process_song_data inp out s =
  (Err (CannotResolve None c),
   {| views := <["song_data_table" := json_to_df corpus]> (views s);
      json_files := json_files s;
      parquet_files := <[out +:+ "songs_table/" := songs_of corpus]> (parquet_files s) |}).
Proof.
  intros Hj Hc Hm.
  unfold process_song_data, bind, read_json, createOrReplaceTempView, sql, write_parquet.
  fold (song_glob inp). rewrite Hj. simpl.
  rewrite (songs_query_frame _ (infer_schema corpus) corpus);
    [|apply lookup_insert_eq|exact Hc].
  simpl.
  rewrite (artists_query_missing _ (infer_schema corpus) corpus c);
    [reflexivity|apply lookup_insert_eq|exact Hm].
Qed.

Lemma song_stage_missing_artists_column_witness :
  process_song_data input_data output_data scenario_session =
  (Err (CannotResolve None "artist_location"),
   {| views := <["song_data_table" := json_to_df [scenario_song]]> (views scenario_session);
      json_files := json_files scenario_session;
      parquet_files :=
        <[output_data +:+ "songs_table/" := songs_of [scenario_song]]>
          (parquet_files scenario_session) |}).
Proof.
  apply (song_stage_missing_artists_column input_data output_data scenario_session).
  - reflexivity.
  - apply incl_columns. reflexivity.
  - reflexivity.
Defined.

Lemma process_song_data_frame (inp out : string) (s : Session) :
  let s' := snd (process_song_data inp out s) in
  json_files s' = json_files s /\
  (forall name, name <> "song_data_table" -> views s' !! name = views s !! name) /\
  (forall path,
     path <> out +:+ "songs_table/" -> path <> out +:+ "artists_table/" ->
     parquet_files s' !! path = parquet_files s !! path).
Proof.
  unfold process_song_data, bind, read_json, createOrReplaceTempView, sql, write_parquet.
  destruct (json_files s !! _); simpl; [|auto].
  destruct (songs_query _); simpl.
  - destruct (artists_query _); simpl;
      (split; [reflexivity|]; split;
       [intros name Hn; now rewrite lookup_insert_ne by congruence
       |intros path H1 H2; now rewrite ?lookup_insert_ne by congruence]).
  - split; [reflexivity|]. split; [|reflexivity].
    intros name Hn. now rewrite lookup_insert_ne by congruence.
Qed.

(** X4: whatever its outcome, the song stage leaves the JSON corpora as
    they are, changes no view but song_data_table and no stored table but
    those under songs_table/ and artists_table/. *)
Theorem song_stage_frame (inp out : string) (s : Session) :
  let s' := snd (process_song_data inp out s) in
  json_files s' = json_files s /\
  (forall name, name <> "song_data_table" -> views s' !! name = views s !! name) /\
  (forall path,
     path <> out +:+ "songs_table/" -> path <> out +:+ "artists_table/" ->
     parquet_files s' !! path = parquet_files s !! path).
Proof. exact (process_song_data_frame inp out s). Qed.

Lemma song_stage_frame_witness :
  let s' := snd (process_song_data input_data output_data used_session) in
  json_files s' = json_files used_session /\
  views s' !! "staging" = Some (json_to_df [song_S2]) /\
  parquet_files s' !! "s3://udacity-dend/archive/" = Some (songs_of [song_S1; song_S2]) /\
  parquet_files s' !! (output_data +:+ "songplays_table/") = Some (songs_of [song_S2]).
Proof.
  destruct (song_stage_frame input_data output_data used_session) as (Hj & Hv & Hp).
  split; [exact Hj|]. split; [|split].
  - rewrite (Hv "staging"); [reflexivity|discriminate].
  - rewrite (Hp "s3://udacity-dend/archive/"); [reflexivity|discriminate|discriminate].
  - rewrite (Hp (output_data +:+ "songplays_table/"));
      [reflexivity|discriminate|discriminate].
Defined.

(** ** The event-log stage: outcome, failures and frame *)

Lemma time_query_missing (vs : Views) (sch : list string) (objs : list JsonObject) :
  vs !! "log_data_table" = Some (frame sch objs) ->
  ~ In "ts" sch ->
  time_query vs = Err (CannotResolve (Some "log") "ts").
Proof.
  intros Hv Hm. unfold time_query, from_view. rewrite Hv. simpl.
  unfold where_, is_not_null. cbn [scope].
  now rewrite qcol_unresolved.
Qed.

Lemma filter_eq_missing (sch : list string) (objs : list JsonObject) (c : string) (v : Value) :
  ~ In c sch -> filter_eq (frame sch objs) c v = Err (CannotResolve None c).
Proof.
  intros H. unfold filter_eq, frame. simpl.
  rewrite index_where_none; [reflexivity|].
  intros x Hx. apply String.eqb_neq. intros ->. contradiction.
Qed.

(** X5: the event-log stage never returns normally, and so neither does
    the job: for every session and every pair of locations the stage ends
    in an error, whatever the corpora hold. *)
Theorem log_stage_always_raises (inp out : string) (s : Session) :
  (exists e, fst (process_log_data inp out s) = Err e) /\
  (exists e, fst (main s) = Err e).
Proof.
  split.
  - exact (proj1 (process_log_data_fails inp out s)).
  - exact (proj1 (main_fails s)).
Qed.

(** X6: whatever its outcome, the event-log stage leaves the JSON corpora
    as they are, changes no view but log_data_table and no stored table
    but those under users_table/ and time_table/; the table under
    songplays_table/ in particular stays as it was. *)
Theorem log_stage_frame (inp out : string) (s : Session) :
  let s' := snd (process_log_data inp out s) in
  json_files s' = json_files s /\
  (forall name, name <> "log_data_table" -> views s' !! name = views s !! name) /\
  (forall path,
     path <> out +:+ "users_table/" -> path <> out +:+ "time_table/" ->
     parquet_files s' !! path = parquet_files s !! path) /\
  parquet_files s' !! (out +:+ "songplays_table/") =
  parquet_files s !! (out +:+ "songplays_table/").
Proof.
  assert (H : let s' := snd (process_log_data inp out s) in
              json_files s' = json_files s /\
              (forall name, name <> "log_data_table" ->
                            views s' !! name = views s !! name) /\
              (forall path,
                 path <> out +:+ "users_table/" -> path <> out +:+ "time_table/" ->
                 parquet_files s' !! path = parquet_files s !! path)).
  { unfold process_log_data, bind, read_json, lift, createOrReplaceTempView, sql,
      write_parquet, read_parquet.
    destruct (json_files s !! _); simpl; [|auto].
    destruct (filter_eq _ _ _); simpl; [|auto].
    destruct (users_query _); simpl.
    2:{ split; [reflexivity|]. split; [|reflexivity].
        intros name Hn. now rewrite lookup_insert_ne by congruence. }
    destruct (time_query _); simpl.
    2:{ split; [reflexivity|]. split.
        - intros name Hn. now rewrite lookup_insert_ne by congruence.
        - intros path H1 H2. now rewrite lookup_insert_ne by congruence. }
    match goal with |- context [<[?k1 := ?v1]> (<[?k2 := ?v2]> (parquet_files s)) !! ?k] =>
      destruct (<[k1 := v1]> (<[k2 := v2]> (parquet_files s)) !! k) as [song_df|]
    end; simpl.
    2:{ split; [reflexivity|]. split.
        - intros name Hn. now rewrite lookup_insert_ne by congruence.
        - intros path H1 H2. now rewrite !lookup_insert_ne by congruence. }
    destruct (rows song_df); simpl.
    1:{ split; [reflexivity|]. split.
        - intros name Hn. now rewrite lookup_insert_ne by congruence.
        - intros path H1 H2. now rewrite !lookup_insert_ne by congruence. }
    match goal with |- context [songplays_query ?vs] =>
      destruct (songplays_query_fails vs) as [e ->]
    end.
    simpl. split; [reflexivity|]. split.
    - intros name Hn. now rewrite lookup_insert_ne by congruence.
    - intros path H1 H2. now rewrite !lookup_insert_ne by congruence. }
  destruct H as (Hj & Hv & Hp). split; [exact Hj|]. split; [exact Hv|].
  split; [exact Hp|]. apply Hp; paths.
Qed.

Lemma log_stage_frame_witness :
  let s' := snd (process_log_data input_data output_data used_session) in
  json_files s' = json_files used_session /\
  views s' !! "staging" = Some (json_to_df [song_S2]) /\
  views s' !! "song_data_table" = Some (json_to_df [song_unkeyed]) /\
  parquet_files s' !! "s3://udacity-dend/archive/" = Some (songs_of [song_S1; song_S2]) /\
  parquet_files s' !! (output_data +:+ "songs_table/") = Some (songs_of [song_S2]) /\
  parquet_files s' !! (output_data +:+ "songplays_table/") = Some (songs_of [song_S2]).
Proof.
  destruct (log_stage_frame input_data output_data used_session) as (Hj & Hv & Hp & Hs).
  split; [exact Hj|]. split; [|split; [|split; [|split]]].
  - rewrite (Hv "staging"); [reflexivity|discriminate].
  - rewrite (Hv "song_data_table"); [reflexivity|discriminate].
  - rewrite (Hp "s3://udacity-dend/archive/"); [reflexivity|discriminate|discriminate].
  - rewrite (Hp (output_data +:+ "songs_table/")); [reflexivity|discriminate|discriminate].
  - rewrite Hs. reflexivity.
Defined.

(** X7: [df.page] has to name a column.  When no log record has a page
    field (an empty corpus among them), the stage fails on the filter and
    the session is as before: no view is registered and no table
    written. *)
Theorem log_stage_missing_page
        (inp out : string) (s : Session) (logs : list JsonObject) :
  json_files s !! log_glob inp = Some logs ->
  ~ In "page" (infer_schema logs) ->
  process_log_data inp out s = (Err (CannotResolve None "page"), s).
Proof.
  intros Hj Hm. unfold process_log_data, bind, read_json, lift.
  fold (log_glob inp). rewrite Hj. simpl.
  rewrite json_to_df_frame, filter_eq_missing by exact Hm. reflexivity.
Qed.

Lemma log_stage_missing_page_witness :
  process_log_data input_data output_data pageless_session =
  (Err (CannotResolve None "page"), pageless_session).
Proof.
  apply (log_stage_missing_page input_data output_data pageless_session
           [ [ ("userId", VStr "7"); ("ts", VInt 1541106106796) ] ]).
  - reflexivity.
  - vm_compute. intros H. repeat destruct H as [H|H]; discriminate || exact H.
Defined.

(** X8: when the log corpus has the columns of the filter and of the users
    statement and no ts, the stage writes the Users table and then fails
    on [log.ts] of the time statement; the Time table is not touched. *)
Theorem log_stage_missing_ts
        (inp out : string) (s : Session) (logs : list JsonObject) :
  json_files s !! log_glob inp = Some logs ->
  incl ("page" :: users_columns) (infer_schema logs) ->
  ~ In "ts" (infer_schema logs) ->
  process_log_data inp out s =
  (Err (CannotResolve (Some "log") "ts"),
   {| views := <["log_data_table" := frame (infer_schema logs) (played logs)]> (views s);
      json_files := json_files s;
      parquet_files := <[out +:+ "users_table/" := users_of logs]> (parquet_files s) |}).
Proof.
  intros Hj Hc Hm. unfold process_log_data, bind, read_json, lift, createOrReplaceTempView,
    sql, write_parquet, read_parquet. fold (log_glob inp). rewrite Hj. simpl.
  rewrite json_to_df_frame, filter_eq_frame by columns. fold (played logs). simpl.
  rewrite (users_query_frame _ (infer_schema logs) (played logs));
    [|apply lookup_insert_eq|intros c Hin; apply Hc; simpl in *; tauto].
  simpl.
  rewrite (time_query_missing _ (infer_schema logs) (played logs));
    [reflexivity|apply lookup_insert_eq|exact Hm].
Qed.

Lemma log_stage_missing_ts_witness :
  process_log_data input_data output_data undated_session =
  (Err (CannotResolve (Some "log") "ts"),
   {| views :=
        <["log_data_table" :=
            frame (infer_schema
                     [ [ ("page", VStr "NextSong"); ("userId", VStr "7");
                         ("firstName", VNull); ("lastName", VNull); ("gender", VNull);
                         ("level", VStr "free") ] ])
                  (played
                     [ [ ("page", VStr "NextSong"); ("userId", VStr "7");
                         ("firstName", VNull); ("lastName", VNull); ("gender", VNull);
                         ("level", VStr "free") ] ])]> (views undated_session);
      json_files := json_files undated_session;
      parquet_files :=
        <[output_data +:+ "users_table/" :=
            users_of [ [ ("page", VStr "NextSong"); ("userId", VStr "7");
                         ("firstName", VNull); ("lastName", VNull); ("gender", VNull);
                         ("level", VStr "free") ] ]]> (parquet_files undated_session) |}).
Proof.
  apply (log_stage_missing_ts input_data output_data undated_session).
  - reflexivity.
  - apply incl_columns. reflexivity.
  - vm_compute. intros H. repeat destruct H as [H|H]; discriminate || exact H.
Defined.

(** X9: run on its own over an output location that holds no Songs table,
    the event-log stage writes the Users and Time tables and then fails on
    the read of songs_table/: the path is not found. *)
Theorem log_stage_without_songs_table
        (inp out : string) (s : Session) (logs : list JsonObject) :
  json_files s !! log_glob inp = Some logs ->
  incl log_columns (infer_schema logs) ->
  parquet_files s !! (out +:+ "songs_table/") = None ->
  process_log_data inp out s =
  (Err (PathNotFound (out +:+ "songs_table/")),
   {| views := <["log_data_table" := frame (infer_schema logs) (played logs)]> (views s);
      json_files := json_files s;
      parquet_files :=
        <[out +:+ "time_table/" := time_of logs]>
          (<[out +:+ "users_table/" := users_of logs]> (parquet_files s)) |}).
Proof.
  intros Hj Hc Hp. unfold process_log_data, bind, read_json, lift, createOrReplaceTempView,
    sql, write_parquet, read_parquet. fold (log_glob inp). rewrite Hj. simpl.
  rewrite json_to_df_frame, filter_eq_frame by columns. fold (played logs). simpl.
  rewrite (users_query_frame _ (infer_schema logs) (played logs));
    [|apply lookup_insert_eq|intros c Hin; apply Hc; simpl in *; tauto].
  simpl.
  rewrite (time_query_frame _ (infer_schema logs) (played logs));
    [|apply lookup_insert_eq|columns].
  simpl. rewrite !lookup_insert_ne by paths. rewrite Hp. reflexivity.
Qed.

Lemma log_stage_without_songs_table_witness :
  process_log_data input_data output_data plays_session =
  (Err (PathNotFound (output_data +:+ "songs_table/")),
   {| views :=
        <["log_data_table" :=
            frame (infer_schema [log_event "7" "free" 1541106106796])
                  (played [log_event "7" "free" 1541106106796])]> (views plays_session);
      json_files := json_files plays_session;
      parquet_files :=
        <[output_data +:+ "time_table/" := time_of [log_event "7" "free" 1541106106796]]>
          (<[output_data +:+ "users_table/" :=
               users_of [log_event "7" "free" 1541106106796]]>
             (parquet_files plays_session)) |}).
Proof.
  apply (log_stage_without_songs_table input_data output_data plays_session).
  - reflexivity.
  - apply incl_columns. reflexivity.
  - reflexivity.
Defined.

(** X10: log records whose page is not NextSong count for nothing.  Two
    corpora with the same NextSong records, in the same order, give the
    same Users table and the same Time table, whatever else they hold. *)
Theorem log_stage_ignores_other_pages
        (inp out : string) (s1 s2 : Session) (logs1 logs2 : list JsonObject) :
  json_files s1 !! log_glob inp = Some logs1 ->
  json_files s2 !! log_glob inp = Some logs2 ->
  incl log_columns (infer_schema logs1) ->
  incl log_columns (infer_schema logs2) ->
  List.filter (fun o => sql_eq (field o "page") (VStr "NextSong")) logs1 =
  List.filter (fun o => sql_eq (field o "page") (VStr "NextSong")) logs2 ->
  exists users time_table,
    parquet_files (snd (process_log_data inp out s1)) !! (out +:+ "users_table/")
    = Some users /\
    parquet_files (snd (process_log_data inp out s2)) !! (out +:+ "users_table/")
    = Some users /\
    parquet_files (snd (process_log_data inp out s1)) !! (out +:+ "time_table/")
    = Some time_table /\
    parquet_files (snd (process_log_data inp out s2)) !! (out +:+ "time_table/")
    = Some time_table.
Proof.
  intros H1 H2 Hc1 Hc2 Hp.
  destruct (process_log_data_run inp out s1 logs1 H1 Hc1) as (e1 & -> & _).
  destruct (process_log_data_run inp out s2 logs2 H2 Hc2) as (e2 & -> & _).
  exists (users_of logs1), (time_of logs1). simpl.
  assert (Eu : users_of logs2 = users_of logs1).
  { unfold users_of, played. now rewrite Hp. }
  assert (Et : time_of logs2 = time_of logs1).
  { unfold time_of, played. now rewrite Hp. }
  rewrite Eu, Et.
  repeat split;
    rewrite ?lookup_insert_eq; try reflexivity;
    rewrite lookup_insert_ne by paths; apply lookup_insert_eq.
Qed.

Lemma log_stage_ignores_other_pages_witness :
  exists users time_table,
    parquet_files (snd (process_log_data input_data output_data plays_session))
      !! (output_data +:+ "users_table/") = Some users /\
    parquet_files (snd (process_log_data input_data output_data plays_and_visits_session))
      !! (output_data +:+ "users_table/") = Some users /\
    parquet_files (snd (process_log_data input_data output_data plays_session))
      !! (output_data +:+ "time_table/") = Some time_table /\
    parquet_files (snd (process_log_data input_data output_data plays_and_visits_session))
      !! (output_data +:+ "time_table/") = Some time_table.
Proof.
  apply (log_stage_ignores_other_pages input_data output_data
           plays_session plays_and_visits_session
           [ log_event "7" "free" 1541106106796 ]
           [ page_view "9" 1541106100000;
             log_event "7" "free" 1541106106796;
             page_view "7" 1541106200000 ]).
  - reflexivity.
  - reflexivity.
  - apply incl_columns. reflexivity.
  - apply incl_columns. reflexivity.
  - reflexivity.
Defined.

(** X11: a log corpus that has the columns and no NextSong record gives a
    Users table and a Time table with their columns and no row. *)
Theorem log_stage_without_plays
        (inp out : string) (s : Session) (logs : list JsonObject) :
  json_files s !! log_glob inp = Some logs ->
  incl log_columns (infer_schema logs) ->
  (forall o, In o logs -> sql_eq (field o "page") (VStr "NextSong") = false) ->
  let s' := snd (process_log_data inp out s) in
  parquet_files s' !! (out +:+ "users_table/") =
    Some {| schema := ["user_id"; "first_name"; "last_name"; "gender"; "level"];
            rows := [] |} /\
  parquet_files s' !! (out +:+ "time_table/") =
    Some {| schema := ["start_time"; "hour"; "day"; "week"; "month"; "year"; "weekday"];
            rows := [] |} /\
  views s' !! "log_data_table" = Some {| schema := infer_schema logs; rows := [] |}.
Proof.
  intros Hj Hc Hn s'. subst s'.
  destruct (process_log_data_run inp out s logs Hj Hc) as (e & -> & _). simpl.
  assert (E : played logs = []).
  { unfold played. clear Hj Hc. induction logs as [|o logs IH]; simpl; [reflexivity|].
    rewrite (Hn o) by now left. apply IH. intros o' Ho'. apply Hn. now right. }
  split; [|split].
  - rewrite lookup_insert_ne by paths. rewrite lookup_insert_eq.
    unfold users_of. now rewrite E.
  - rewrite lookup_insert_eq. unfold time_of. now rewrite E.
  - rewrite lookup_insert_eq. unfold frame. now rewrite E.
Qed.

Lemma log_stage_without_plays_witness :
  let s' := snd (process_log_data input_data output_data visits_session) in
  parquet_files s' !! (output_data +:+ "users_table/") =
    Some {| schema := ["user_id"; "first_name"; "last_name"; "gender"; "level"];
            rows := [] |} /\
  parquet_files s' !! (output_data +:+ "time_table/") =
    Some {| schema := ["start_time"; "hour"; "day"; "week"; "month"; "year"; "weekday"];
            rows := [] |} /\
  views s' !! "log_data_table" =
    Some {| schema := infer_schema [ page_view "9" 1541106100000;
                                     page_view "7" 1541106200000 ];
            rows := [] |}.
Proof.
  apply (log_stage_without_plays input_data output_data visits_session).
  - reflexivity.
  - apply incl_columns. reflexivity.
  - intros o Ho. simpl in Ho. destruct Ho as [<-|[<-|[]]]; reflexivity.
Defined.

(** ** The job *)

(** X12: a failure of the song stage ends the job with the same error, and
    the event-log stage does not start: the view log_data_table and the
    tables under users_table/ and time_table/ are as before the run. *)
Theorem failed_song_stage_ends_main (s : Session) (e : Error) :
  fst (process_song_data input_data output_data s) = Err e ->
  main s = (Err e, snd (process_song_data input_data output_data s)) /\
  views (snd (main s)) !! "log_data_table" = views s !! "log_data_table" /\
  parquet_files (snd (main s)) !! (output_data +:+ "users_table/") =
  parquet_files s !! (output_data +:+ "users_table/") /\
  parquet_files (snd (main s)) !! (output_data +:+ "time_table/") =
  parquet_files s !! (output_data +:+ "time_table/").
Proof.
  intros H. rewrite main_unfold.
  destruct (process_song_data_frame input_data output_data s) as (_ & Hv & Hp).
  destruct (process_song_data input_data output_data s) as [[u|e'] s1]; simpl in *;
    [discriminate|].
  injection H as ->.
  split; [reflexivity|]. split; [apply Hv; discriminate|].
  split; apply Hp; discriminate.
Qed.

Lemma failed_song_stage_ends_main_witness :
  main scenario_session =
  (Err (CannotResolve None "artist_location"),
   snd (process_song_data input_data output_data scenario_session)) /\
  views (snd (main scenario_session)) !! "log_data_table"
  = views scenario_session !! "log_data_table" /\
  parquet_files (snd (main scenario_session)) !! (output_data +:+ "users_table/") =
  parquet_files scenario_session !! (output_data +:+ "users_table/") /\
  parquet_files (snd (main scenario_session)) !! (output_data +:+ "time_table/") =
  parquet_files scenario_session !! (output_data +:+ "time_table/").
Proof.
  apply (failed_song_stage_ends_main scenario_session).
  vm_compute. reflexivity.
Defined.

(** X13: the job takes nothing from what the session held before.  Two
    sessions with the same JSON corpora, whatever their views and stored
    tables, end the same way, and every path at which the run of one
    changes the stored table holds the same table after the run of the
    other. *)
Theorem main_ignores_prior_state (s1 s2 : Session) :
  json_files s1 = json_files s2 ->
  fst (main s1) = fst (main s2) /\
  (forall path,
     parquet_files (snd (main s1)) !! path <> parquet_files s1 !! path ->
     parquet_files (snd (main s2)) !! path = parquet_files (snd (main s1)) !! path).
Proof.
  intros Hj.
  destruct (main_effect (json_files s1)) as (r & ws & H).
  destruct (H s1 eq_refl) as (Hr1 & _ & Hp1).
  destruct (H s2 (eq_sym Hj)) as (Hr2 & _ & Hp2).
  split; [congruence|].
  intros path. rewrite Hp1, Hp2, !lookup_apply_writes.
  destruct (written ws path); [reflexivity|congruence].
Qed.

Lemma main_ignores_prior_state_witness :
  fst (main scenario_session_all_fields) = fst (main used_session) /\
  parquet_files (snd (main used_session)) !! (output_data +:+ "songs_table/")
  = parquet_files (snd (main scenario_session_all_fields)) !! (output_data +:+ "songs_table/").
Proof.
  destruct (main_ignores_prior_state scenario_session_all_fields used_session)
    as (Hr & Hp).
  - reflexivity.
  - split; [exact Hr|]. apply Hp. vm_compute. discriminate.
Defined.

(** ** The rows of the Artists table *)

(** X14: a row is in the written Artists table exactly when it is the
    (artist_id, artist_name, artist_location, artist_latitude,
    artist_longitude) of some song record with a non-null artist_id: the
    table is keyed by the whole row, and song records without a song_id
    count as well. *)
Theorem artists_table_rows
        (inp out : string) (s : Session) (corpus : list JsonObject) :
  json_files s !! song_glob inp = Some corpus ->
  incl song_columns_needed (infer_schema corpus) ->
  exists artists,
    parquet_files (snd (process_song_data inp out s)) !! (out +:+ "artists_table/")
    = Some artists /\
    forall r,
      In r (rows artists) <->
      exists o, In o corpus /\ field o "artist_id" <> VNull /\
                r = [ field o "artist_id"; field o "artist_name";
                      field o "artist_location"; field o "artist_latitude";
                      field o "artist_longitude" ].
Proof.
  intros Hj Hc. exists (artists_of corpus).
  rewrite (process_song_data_ok inp out s corpus Hj);
    try (intros c Hin; apply Hc; apply in_or_app; auto).
  simpl. split; [apply lookup_insert_eq|].
  intros r. rewrite In_remove_dups, in_map_iff. split.
  - intros (o & <- & Ho). apply filter_In in Ho as [Ho Hn]. exists o.
    repeat split; auto.
    unfold not_null in Hn. destruct (field o "artist_id"); simpl in Hn; congruence.
  - intros (o & Ho & Hn & ->). exists o. split; [reflexivity|].
    apply filter_In. split; [exact Ho|].
    unfold not_null. destruct (field o "artist_id"); simpl; congruence.
Qed.

Lemma artists_table_rows_witness :
  exists artists,
    parquet_files (snd (process_song_data input_data output_data mixed_catalog_session))
      !! (output_data +:+ "artists_table/") = Some artists /\
    forall r,
      In r (rows artists) <->
      exists o, In o [song_S1; song_unkeyed] /\ field o "artist_id" <> VNull /\
                r = [ field o "artist_id"; field o "artist_name";
                      field o "artist_location"; field o "artist_latitude";
                      field o "artist_longitude" ].
Proof.
  apply (artists_table_rows input_data output_data mixed_catalog_session).
  - reflexivity.
  - apply incl_columns. reflexivity.
Defined.

(** ** The fields of a Time row *)

Lemma month_length_le (y m : Z) : 1 <= m <= 12 -> month_length y m <= 31.
Proof.
  intros Hm. unfold month_length.
  assert (Hc : m = 1 \/ m = 2 \/ m = 3 \/ m = 4 \/ m = 5 \/ m = 6 \/ m = 7 \/ m = 8 \/
               m = 9 \/ m = 10 \/ m = 11 \/ m = 12) by lia.
  generalize (is_leap_year y). intros b.
  repeat (destruct Hc as [->|Hc]); try subst m; destruct b; vm_compute; discriminate.
Qed.

Lemma time_fields_ranges (t h d w m y wd : Z) :
  time_fields t h d w m y wd ->
  0 <= h <= 23 /\ 1 <= d <= 31 /\ 1 <= w <= 53 /\ 1 <= m <= 12 /\ 1 <= wd <= 7 /\
  date_day y m d = t / 86400000000 /\
  (- 2 ^ 63 <= t <= 2 ^ 63 - 1 -> -290308 <= y <= 294247).
Proof.
  intros (n & mi & se & us & th & yw & Et & Hh & Hmi & Hse & Hus & Hm & Hd & En &
          Hwd & Ewd & Eth & Hth & Hyw & Ew).
  pose proof (month_length_le y m Hm) as Hml.
  pose proof (date_day_in_year y m d Hm Hd) as Hy.
  rewrite (date_day_january yw), (date_day_january (yw + 1)) in Hyw.
  rewrite (date_day_january yw) in Ew.
  pose proof (days_before_next_year yw) as Hlen.
  assert (Hlen' : days_before_year (yw + 1) <= days_before_year yw + 366)
    by (destruct (is_leap_year yw); lia).
  assert (Hn : n = t / 86400000000) by (clear - Et Hh Hmi Hse Hus; lia).
  split; [lia|]. split; [lia|].
  split; [clear - Hyw Ew Hlen'; lia|].
  split; [exact Hm|]. split; [exact Hwd|]. split; [congruence|].
  intros Ht.
  assert (Hn' : -106751992 <= n <= 106751991) by (clear - Hn Ht; lia).
  rewrite <- En in Hy. clear - Hy Hn'.
  split.
  - destruct (Z_lt_le_dec y (-290308)) as [L|L]; [|exact L].
    apply days_before_year_mono in L.
    assert (days_before_year (-290308) <= -106751992) by (vm_compute; discriminate).
    lia.
  - destruct (Z_lt_le_dec 294247 y) as [L|L]; [|exact L].
    apply days_before_year_mono in L.
    assert (106751991 < days_before_year (294247 + 1)) by reflexivity.
    lia.
Qed.

(** X15: whatever the corpus holds under ts, each row of the written Time
    table is seven NULLs or a timestamp within the 64 bits followed by
    integers: an hour from 0 to 23, a day from 1 to 31, a week from 1 to
    53, a month from 1 to 12, a year from -290308 to 294247 and a weekday
    from 1 to 7; and year, month and day are the date of the day that
    holds the timestamp, day number t / 86400000000 since the epoch. *)
Theorem time_table_fields_in_range
        (inp out : string) (s : Session) (logs : list JsonObject) :
  json_files s !! log_glob inp = Some logs ->
  incl log_columns (infer_schema logs) ->
  exists time_table,
    parquet_files (snd (process_log_data inp out s)) !! (out +:+ "time_table/")
    = Some time_table /\
    forall r, In r (rows time_table) ->
      r = [VNull; VNull; VNull; VNull; VNull; VNull; VNull] \/
      exists t h d w m y wd,
        r = [ VTimestamp t; VInt h; VInt d; VInt w; VInt m; VInt y; VInt wd ] /\
        - 2 ^ 63 <= t <= 2 ^ 63 - 1 /\
        0 <= h <= 23 /\ 1 <= d <= 31 /\ 1 <= w <= 53 /\ 1 <= m <= 12 /\
        -290308 <= y <= 294247 /\ 1 <= wd <= 7 /\
        date_day y m d = t / 86400000000.
Proof.
  intros Hj Hc. exists (time_of logs).
  destruct (process_log_data_run inp out s logs Hj Hc) as (e & -> & _). simpl.
  split; [apply lookup_insert_eq|].
  intros r Hr. apply in_map_iff in Hr as (o & <- & Ho).
  destruct (time_row_fields (field o "ts")) as [E|(t & h & d & w & m & y & wd & E & Ht & Hf)];
    [now left|right].
  destruct (time_fields_ranges _ _ _ _ _ _ _ Hf) as (Hh & Hd & Hw & Hm & Hwd & Hday & Hy).
  exists t, h, d, w, m, y, wd. auto 10.
Qed.

Lemma time_table_fields_in_range_witness :
  exists time_table,
    parquet_files (snd (process_log_data input_data output_data upgrade_session))
      !! (output_data +:+ "time_table/") = Some time_table /\
    forall r, In r (rows time_table) ->
      r = [VNull; VNull; VNull; VNull; VNull; VNull; VNull] \/
      exists t h d w m y wd,
        r = [ VTimestamp t; VInt h; VInt d; VInt w; VInt m; VInt y; VInt wd ] /\
        - 2 ^ 63 <= t <= 2 ^ 63 - 1 /\
        0 <= h <= 23 /\ 1 <= d <= 31 /\ 1 <= w <= 53 /\ 1 <= m <= 12 /\
        -290308 <= y <= 294247 /\ 1 <= wd <= 7 /\
        date_day y m d = t / 86400000000.
Proof.
  apply (time_table_fields_in_range input_data output_data upgrade_session
           [ log_event "7" "free" 1541106106796;
             log_event "7" "paid" 1541106132796;
             log_event "7" "paid" 1541106352796 ]).
  - reflexivity.
  - apply incl_columns. reflexivity.
Defined.

(** ** The errors of a run *)

(** X16: a run fails for want of an input glob, for want of a name in a
    statement, or in the read of songs_table/ for want of a schema, and
    for nothing else.  The last is the error of a run over a catalog that
    has the columns of the statements and no record with a song_id: the
    Songs table it writes has no row.  The views are registered before the
    statements that name them and songs_table/ is written before it is
    read, so no run of the job ends in "table or view not found" or in a
    missing songs_table/. *)
Theorem main_error_kinds (s : Session) (err : Error) :
  fst (main s) = Err err ->
  err = PathNotFound (song_glob input_data) \/
  err = PathNotFound (log_glob input_data) \/
  (err = UnableToInferSchema (output_data +:+ "songs_table/") /\
   exists songs,
     json_files s !! song_glob input_data = Some songs /\
     incl song_columns_needed (infer_schema songs) /\
     forall o, In o songs -> field o "song_id" = VNull) \/
  unresolved err.
Proof.
  rewrite main_unfold.
  unfold process_song_data, process_log_data, bind, read_json, lift,
    createOrReplaceTempView, sql, write_parquet, read_parquet.
  fold (song_glob input_data). fold (log_glob input_data).
  destruct (json_files s !! song_glob input_data) as [songs|]; cbn [fst snd views
    json_files parquet_files]; [|intros [= <-]; auto].
  destruct (songs_query _) as [T1|x] eqn:E1; cbn [fst snd views json_files parquet_files].
  2:{ intros [= <-]. do 3 right. eapply songs_query_error; [|exact E1].
      rewrite lookup_insert_eq. eauto. }
  destruct (artists_query _) as [T2|x] eqn:E2; cbn [fst snd views json_files parquet_files].
  2:{ intros [= <-]. do 3 right. eapply artists_query_error; [|exact E2].
      rewrite lookup_insert_eq. eauto. }
  destruct (json_files s !! log_glob input_data) as [logs|];
    cbn [fst snd views json_files parquet_files]; [|intros [= <-]; auto].
  destruct (filter_eq _ _ _) as [L|x] eqn:E3; cbn [fst snd views json_files parquet_files].
  2:{ intros [= <-]. do 3 right. unfold filter_eq in E3.
      destruct (index_where _ _); [discriminate|]. now injection E3 as <-. }
  destruct (users_query _) as [T3|x] eqn:E4; cbn [fst snd views json_files parquet_files].
  2:{ intros [= <-]. do 3 right. eapply users_query_error; [|exact E4].
      rewrite lookup_insert_eq. eauto. }
  destruct (time_query _) as [T4|x] eqn:E5; cbn [fst snd views json_files parquet_files].
  2:{ intros [= <-]. do 3 right. eapply time_query_error; [|exact E5].
      rewrite lookup_insert_eq. eauto. }
  rewrite !lookup_insert_ne by paths. rewrite lookup_insert_eq.
  cbn [fst snd views json_files parquet_files].
  destruct (rows T1) as [|r1 rs1] eqn:E6; cbn [fst snd views json_files parquet_files].
  - intros [= <-]. right. right. left. split; [reflexivity|].
    exists songs. split; [reflexivity|].
    destruct (first_missing songs_columns (infer_schema songs)) as [c|] eqn:M1.
    { rewrite (songs_query_missing _ (infer_schema songs) songs c) in E1;
        [discriminate|apply lookup_insert_eq|exact M1]. }
    destruct (first_missing artists_columns (infer_schema songs)) as [c|] eqn:M2.
    { rewrite (artists_query_missing _ (infer_schema songs) songs c) in E2;
        [discriminate|apply lookup_insert_eq|exact M2]. }
    apply first_missing_none in M1, M2.
    split.
    { intros c Hc. apply in_app_or in Hc as [Hc|Hc]; auto. }
    rewrite (songs_query_frame _ (infer_schema songs) songs) in E1;
      [|apply lookup_insert_eq|exact M1].
    injection E1 as <-. cbn [rows] in E6.
    apply map_eq_nil in E6.
    intros o Ho. destruct (field o "song_id") eqn:Eo; try reflexivity;
      (assert (Hin : In o (List.filter (not_null "song_id") songs))
         by (apply filter_In; split; [exact Ho|unfold not_null; now rewrite Eo]);
       rewrite E6 in Hin; destruct Hin).
  - destruct (songplays_query _) as [T5|x] eqn:E7; cbn [fst snd]; [discriminate|].
    intros [= <-]. do 3 right. eapply songplays_query_error; [| |exact E7].
    + rewrite lookup_insert_eq. eauto.
    + rewrite lookup_insert_ne by discriminate. rewrite lookup_insert_eq. eauto.
Qed.

Lemma main_error_kinds_witness :
  UnableToInferSchema (output_data +:+ "songs_table/") = PathNotFound (song_glob input_data) \/
  UnableToInferSchema (output_data +:+ "songs_table/") = PathNotFound (log_glob input_data) \/
  (UnableToInferSchema (output_data +:+ "songs_table/") =
   UnableToInferSchema (output_data +:+ "songs_table/") /\
   exists songs,
     json_files unkeyed_session !! song_glob input_data = Some songs /\
     incl song_columns_needed (infer_schema songs) /\
     forall o, In o songs -> field o "song_id" = VNull) \/
  unresolved (UnableToInferSchema (output_data +:+ "songs_table/")).
Proof.
  apply (main_error_kinds unkeyed_session).
  vm_compute. reflexivity.
Defined.

(** ** The frame read back from songs_table/ *)

(** X17: the event-log stage reads the table under songs_table/ and makes
    no use of what it holds; of that table only this matters, whether it
    has a row, since a table without rows cannot be read back.  Put any
    two tables there that both have a row, or both none: the stage ends
    the same way, registers the same view and leaves the same table under
    every other path. *)
Theorem log_stage_ignores_stored_songs
        (inp out : string) (s : Session) (df1 df2 : DataFrame) :
  (rows df1 = [] <-> rows df2 = []) ->
  let with_songs df :=
    {| views := views s;
       json_files := json_files s;
       parquet_files := <[out +:+ "songs_table/" := df]> (parquet_files s) |} in
  let run1 := process_log_data inp out (with_songs df1) in
  let run2 := process_log_data inp out (with_songs df2) in
  fst run1 = fst run2 /\
  views (snd run1) = views (snd run2) /\
  (forall path, path <> out +:+ "songs_table/" ->
                parquet_files (snd run1) !! path = parquet_files (snd run2) !! path).
Proof.
  intros Hrows.
  unfold process_log_data, bind, read_json, lift, createOrReplaceTempView, sql,
    write_parquet, read_parquet. cbn [views json_files parquet_files].
  destruct (json_files s !! _); cbn [fst snd views json_files parquet_files].
  2:{ split; [reflexivity|]. split; [reflexivity|].
      intros path Hp. now rewrite !lookup_insert_ne by congruence. }
  destruct (filter_eq _ _ _); cbn [fst snd views json_files parquet_files].
  2:{ split; [reflexivity|]. split; [reflexivity|].
      intros path Hp. now rewrite !lookup_insert_ne by congruence. }
  destruct (users_query _); cbn [fst snd views json_files parquet_files].
  2:{ split; [reflexivity|]. split; [reflexivity|].
      intros path Hp. now rewrite !lookup_insert_ne by congruence. }
  destruct (time_query _); cbn [fst snd views json_files parquet_files].
  2:{ split; [reflexivity|]. split; [reflexivity|].
      intros path Hp.
      destruct (decide (path = out +:+ "users_table/")) as [->|Hu].
      - now rewrite !lookup_insert_eq.
      - now rewrite !lookup_insert_ne by congruence. }
  rewrite !(lookup_insert_ne _ (out +:+ "time_table/")) by paths.
  rewrite !(lookup_insert_ne _ (out +:+ "users_table/")) by paths.
  rewrite !lookup_insert_eq. cbn [fst snd views json_files parquet_files].
  assert (Hpaths : forall (T U : DataFrame) path,
             path <> out +:+ "songs_table/" ->
             <[out +:+ "time_table/" := T]>
               (<[out +:+ "users_table/" := U]>
                  (<[out +:+ "songs_table/" := df1]> (parquet_files s))) !! path =
             <[out +:+ "time_table/" := T]>
               (<[out +:+ "users_table/" := U]>
                  (<[out +:+ "songs_table/" := df2]> (parquet_files s))) !! path).
  { intros T U path Hp.
    destruct (decide (path = out +:+ "time_table/")) as [->|Ht].
    - now rewrite !lookup_insert_eq.
    - rewrite !(lookup_insert_ne _ (out +:+ "time_table/")) by congruence.
      destruct (decide (path = out +:+ "users_table/")) as [->|Hu].
      + now rewrite !lookup_insert_eq.
      + now rewrite !lookup_insert_ne by congruence. }
  destruct (rows df1) as [|r1 rs1], (rows df2) as [|r2 rs2];
    cbn [fst snd views json_files parquet_files].
  - split; [reflexivity|]. split; [reflexivity|apply Hpaths].
  - discriminate (proj1 Hrows eq_refl).
  - discriminate (proj2 Hrows eq_refl).
  - match goal with |- context [songplays_query ?vs] =>
      destruct (songplays_query_fails vs) as [e ->]
    end.
    cbn [fst snd views json_files parquet_files].
    split; [reflexivity|]. split; [reflexivity|apply Hpaths].
Qed.

Lemma log_stage_ignores_stored_songs_witness :
  let with_songs df :=
    {| views := views plays_session;
       json_files := json_files plays_session;
       parquet_files :=
         <[output_data +:+ "songs_table/" := df]> (parquet_files plays_session) |} in
  let run1 := process_log_data input_data output_data (with_songs (songs_of [song_S1])) in
  let run2 :=
    process_log_data input_data output_data (with_songs (songs_of [song_S2; song_S1])) in
  fst run1 = fst run2 /\
  views (snd run1) = views (snd run2) /\
  parquet_files (snd run1) !! (output_data +:+ "time_table/") =
  parquet_files (snd run2) !! (output_data +:+ "time_table/").
Proof.
  destruct (log_stage_ignores_stored_songs input_data output_data plays_session
              (songs_of [song_S1]) (songs_of [song_S2; song_S1])) as (Hr & Hv & Hp).
  - split; discriminate.
  - split; [exact Hr|]. split; [exact Hv|]. apply Hp. paths.
Defined.

Lemma song_stage_succeeds_iff_witness :
  fst (process_song_data input_data output_data catalog_session) = Ok tt.
Proof.
  apply (song_stage_succeeds_iff input_data output_data catalog_session).
  exists [song_S1; song_unkeyed; song_S1].
  split; [reflexivity|]. apply incl_columns. reflexivity.
Defined.
